(** * The user routes of node_assignment: cache store, key policy, router

    A shallow embedding of [src/routes/userRoutes.ts]: the process-wide
    cache ([setCache], [getCache], [invalidateCacheByPrefix]) and the
    request router [userRouter] with its five routes.

    Conventions of the embedding.
    - A JavaScript number is an integer of [Z]; [NaN] only arises from
      [parseInt] and is its [None].  A [VNum n] stands for a number of the
      runtime when [n] is a safe integer, [- 2^53 < n < 2^53]: there the
      decimal text and [parseInt] are exact.  Numbers that are not integers
      are outside the embedding.
    - A string is a sequence of code units below 256, one [ascii] each (the
      Latin-1 part of the strings of the runtime); [toLowerCase] and the
      white space of [parseInt] are the runtime's on these code units.
    - The object [cache] is used as a map from own keys to entries
      ([gmap string CacheEntry]); the keys the router derives are never
      names inherited from [Object.prototype].
    - What the runtime and the drivers do ([Date.now], [JSON.parse], the
      URL parser, the document store, the remote ingestion) enters as an
      oracle: a field of the request, or an operation of the [Store]
      interface.

    The loop of GET /load is also embedded on its own, over a [Remote] API
    and the [localeCompare] of the runtime ([remote_store] makes it the
    ingestion of a store), and so is [connectDB] of [src/db.ts]. *)

From Stdlib Require Import ZArith Ascii String List Bool Lia.
From Stdlib Require Import DecimalString DecimalZ.
From Stdlib Require Import Sorted.
From stdpp Require Import base option list gmap strings fin_maps.

Local Open Scope string_scope.
Local Open Scope Z_scope.

Set Warnings "-register-all".

(** ** JavaScript values *)

Inductive value : Type :=
| VUndefined
| VNull
| VBool (b : bool)
| VNum (n : Z)
| VStr (s : string)
| VArr (items : list value)
| VObj (props : list (string * value)).

(** [if (v)]: the truthiness of a value. *)
Definition truthy (v : value) : bool :=
  match v with
  | VUndefined | VNull => false
  | VBool b => b
  | VNum n => negb (n =? 0)
  | VStr s => negb (String.eqb s "")
  | VArr _ | VObj _ => true
  end.

Fixpoint assoc {A} (k : string) (ps : list (string * A)) : option A :=
  match ps with
  | [] => None
  | (k', v) :: ps' => if String.eqb k k' then Some v else assoc k ps'
  end.

(** [v.name]: property read; a missing property reads [undefined]. *)
Definition get_prop (v : value) (name : string) : value :=
  match v with
  | VObj ps => default VUndefined (assoc name ps)
  | _ => VUndefined
  end.

(** [typeof v === "number"]. *)
Definition is_number (v : value) : bool :=
  match v with VNum _ => true | _ => false end.

(** Writing a property of an object literal: an existing key keeps its
    place and takes the new value, a new key goes last. *)
Fixpoint obj_set (k : string) (v : value) (ps : list (string * value))
  : list (string * value) :=
  match ps with
  | [] => [(k, v)]
  | (k', v') :: ps' =>
      if String.eqb k k' then (k', v) :: ps' else (k', v') :: obj_set k v ps'
  end.

(** [{ ...v }]: the own properties of an object (the payloads spread by the
    router are the objects it cached). *)
Definition spread (v : value) : list (string * value) :=
  match v with VObj ps => ps | _ => [] end.

(** ** The cache store (lines 8-25) *)

Record CacheEntry : Type := { data : value; timestamp : Z }.

Definition CACHE_TTL : Z := 5 * 60 * 1000.

(** [setCache(key, data)], where [now] is what [Date.now()] returns. *)
Definition setCache (now : Z) (key : string) (d : value)
    (cache : gmap string CacheEntry) : gmap string CacheEntry :=
  <[key := {| data := d; timestamp := now |}]> cache.

(** [getCache(key)]: [null] when there is no entry or it is older than the
    TTL, the entry's data otherwise. *)
Definition getCache (now : Z) (key : string)
    (cache : gmap string CacheEntry) : value :=
  match cache !! key with
  | None => VNull
  | Some entry =>
      if now - timestamp entry >? CACHE_TTL then VNull else data entry
  end.

(** [key.startsWith(prefix)]. *)
Definition startsWith (key prefix : string) : bool := String.prefix prefix key.

(** [Object.keys(cache)]. *)
Definition Object_keys (cache : gmap string CacheEntry) : list string :=
  (map_to_list cache).*1.

(** [invalidateCacheByPrefix(prefix)]: one pass over the keys, deleting
    each key that starts with the prefix. *)
Definition invalidateCacheByPrefix (prefix : string)
    (cache : gmap string CacheEntry) : gmap string CacheEntry :=
  fold_left
    (fun c key => if startsWith key prefix then delete key c else c)
    (Object_keys cache) cache.

(** ** Strings and numbers of the runtime *)

Definition dquote : ascii := "034"%char.
Definition backslash : ascii := "092"%char.

(** [`${n}`] and [JSON.stringify(n)] for an integer: its decimal digits. *)
Definition Z_to_string (n : Z) : string := NilZero.string_of_int (Z.to_int n).

Definition hex_digit (n : N) : ascii :=
  if (n <? 10)%N then ascii_of_N (48 + n) else ascii_of_N (87 + n).

(** One character inside a JSON string literal (QuoteJSONString): the
    quote and the backslash are escaped, a control character has its short
    escape or its four hex digits, any other character stands for itself. *)
Definition escape_char (c : ascii) : string :=
  match N_of_ascii c with
  | 34%N => String backslash (String dquote "")
  | 92%N => String backslash (String backslash "")
  | 8%N => String backslash "b"
  | 12%N => String backslash "f"
  | 10%N => String backslash "n"
  | 13%N => String backslash "r"
  | 9%N => String backslash "t"
  | n =>
      if (n <? 32)%N
      then String backslash
             (String "u" (String "0" (String "0"
                (String (hex_digit (n / 16)) (String (hex_digit (n mod 16)) "")))))
      else String c ""
  end.

Fixpoint escape (s : string) : string :=
  match s with
  | EmptyString => ""
  | String c s' => escape_char c +:+ escape s'
  end.

Definition quote (s : string) : string :=
  String dquote (escape s +:+ String dquote "").

Fixpoint join (sep : string) (parts : list string) : string :=
  match parts with
  | [] => ""
  | [p] => p
  | p :: ps => p +:+ sep +:+ join sep ps
  end.

Fixpoint somes {A} (l : list (option A)) : list A :=
  match l with
  | [] => []
  | Some a :: l' => a :: somes l'
  | None :: l' => somes l'
  end.

(** [JSON.stringify(v)].  A property whose value is [undefined] is left
    out, an [undefined] array element is written [null]; every call of the
    router is on an object. *)
Fixpoint JSON_stringify (v : value) : string :=
  match v with
  | VUndefined | VNull => "null"
  | VBool true => "true"
  | VBool false => "false"
  | VNum n => Z_to_string n
  | VStr s => quote s
  | VArr items => "[" +:+ join "," (map JSON_stringify items) +:+ "]"
  | VObj props =>
      "{" +:+ join ","
        (somes (map (fun kv =>
           match kv with
           | (_, VUndefined) => None
           | (k, v') => Some (quote k +:+ ":" +:+ JSON_stringify v')
           end) props)) +:+ "}"
  end.

(** [`${v}`]: the text of a value in a template literal. *)
Fixpoint template (v : value) : string :=
  match v with
  | VUndefined => "undefined"
  | VNull => "null"
  | VBool true => "true"
  | VBool false => "false"
  | VNum n => Z_to_string n
  | VStr s => s
  | VArr items =>
      join "," (map (fun i => match i with
                              | VUndefined | VNull => ""
                              | _ => template i
                              end) items)
  | VObj _ => "[object Object]"
  end.

(** The case mapping of [toLowerCase] on a code unit below 256: the
    letters [A]-[Z], and the Latin-1 capitals U+00C0-U+00DE without the
    multiplication sign U+00D7, are 32 below their small letters. *)
Definition lower_char (c : ascii) : ascii :=
  let n := N_of_ascii c in
  if (((65 <=? n) && (n <=? 90))
      || ((192 <=? n) && (n <=? 222) && negb (n =? 215)))%N
  then ascii_of_N (n + 32) else c.

Fixpoint toLowerCase (s : string) : string :=
  match s with
  | EmptyString => ""
  | String c s' => String (lower_char c) (toLowerCase s')
  end.

(** [s.split(sep)] for a one-character separator. *)
Fixpoint split (sep : ascii) (s : string) : list string :=
  match s with
  | EmptyString => [""]
  | String c s' =>
      if Ascii.eqb c sep then "" :: split sep s'
      else match split sep s' with
           | seg :: segs => String c seg :: segs
           | [] => [String c ""]
           end
  end.

(** ** [parseInt] *)

(** The white space and line terminators that [parseInt] skips, among the
    code units below 256: U+0009-U+000D, the space and U+00A0. *)
Definition is_space (c : ascii) : bool :=
  let n := N_of_ascii c in
  ((n =? 32) || ((9 <=? n) && (n <=? 13)) || (n =? 160))%N.

Fixpoint trim_start (s : string) : string :=
  match s with
  | String c s' => if is_space c then trim_start s' else s
  | EmptyString => ""
  end.

(** The value of a digit in the given radix, if it is one. *)
Definition digit_value (radix : Z) (c : ascii) : option Z :=
  let n := Z.of_N (N_of_ascii c) in
  let d := if (48 <=? n) && (n <=? 57) then Some (n - 48)
           else if (97 <=? n) && (n <=? 122) then Some (n - 87)
           else if (65 <=? n) && (n <=? 90) then Some (n - 55)
           else None in
  match d with
  | Some d => if d <? radix then Some d else None
  | None => None
  end.

(** The longest prefix of digits, read in the radix; [acc] is what has been
    read so far ([None]: no digit yet). *)
Fixpoint read_digits (radix : Z) (acc : option Z) (s : string) : option Z :=
  match s with
  | EmptyString => acc
  | String c s' =>
      match digit_value radix c with
      | Some d => read_digits radix (Some (radix * default 0 acc + d)) s'
      | None => acc
      end
  end.

Definition strip_sign (s : string) : Z * string :=
  match s with
  | String "-" s' => (-1, s')
  | String "+" s' => (1, s')
  | _ => (1, s)
  end.

Definition strip_0x (s : string) : option string :=
  match s with
  | String "0" (String "x" s') | String "0" (String "X" s') => Some s'
  | _ => None
  end.

(** [parseInt(s, radix)], and [parseInt(s)] for [radix = None]: leading
    white space, a sign, a [0x] prefix when the radix is 16 or not given,
    then the longest prefix of digits; [None] is [NaN]. *)
Definition parseInt (s : string) (radix : option Z) : option Z :=
  let '(sign, s1) := strip_sign (trim_start s) in
  let '(r, s2) :=
    match radix with
    | Some 16 | None =>
        match strip_0x s1 with
        | Some s' => (16, s')
        | None => (default 10 radix, s1)
        end
    | Some r => (r, s1)
    end in
  Z.mul sign <$> read_digits r None s2.

(** [Math.ceil(a / b)] on integers with [b > 0]. *)
Definition Math_ceil_div (a b : Z) : Z := - ((- a) / b).

(** ** The document store and the world of a request *)

(** A store operation returns or throws. *)
Inductive outcome (A : Type) : Type :=
| Returned (a : A)
| Thrown.
Arguments Returned {A} a.
Arguments Thrown {A}.

(** [{ field: { $regex: pattern, $options: options } }]. *)
Inductive predicate : Type :=
| Regex (field pattern options : string).

(** The filter of a collection read: [{}] or [{ $or: [...] }]. *)
Inductive query : Type :=
| QAll
| QOr (clauses : list predicate).

(** The collection [db.collection("users")] as the router uses it, and the
    ingestion of lines 34-50 ([ingest]: the fetches from the remote API with
    the [insertOne] of every fetched user).  Every operation may throw, and
    leaves a new state of the store.
    - [findOne id] is [findOne({ id })]: the document or [null].
    - [insertOne doc] returns the [_id] the driver generated and wrote into
      the document passed to it, when the document had none.
    - [deleteOne id] is [deleteOne({ id })]: its [deletedCount].
    - [find q sortBy order skip limit] is
      [find(q).sort({ [sortBy]: order }).skip(skip).limit(limit).toArray()].
    - [countDocuments q]. *)
Class Store (DB : Type) : Type := {
  findOne : Z -> DB -> outcome (option value) * DB;
  insertOne : value -> DB -> outcome (option value) * DB;
  deleteOne : Z -> DB -> outcome Z * DB;
  find : query -> string -> Z -> Z -> Z -> DB -> outcome (list value) * DB;
  countDocuments : query -> DB -> outcome Z * DB;
  ingest : DB -> outcome unit * DB
}.

(** The calls a request makes on the store, in order. *)
Inductive StoreCall : Type :=
| CallFindOne (id : Z)
| CallInsertOne (doc : value)
| CallDeleteOne (id : Z)
| CallFind (q : query) (sortBy : string) (order skip limit : Z)
| CallCountDocuments (q : query)
| CallIngest.

Record Response : Type := {
  status : Z;
  headers : list (string * string);
  body : string
}.

(** What the router reads of [req]: the method, the URL, and what the
    runtime makes of the rest: the outcome of
    [new URL(req.url, `http://${req.headers.host}`)] of line 125 ([None]:
    it throws, as it does on a [Host] that makes no URL; otherwise the
    decoded pairs of its [searchParams]), and the outcome of [JSON.parse] on
    the body once it has ended ([None]: it throws). *)
Record Request : Type := {
  method : string;
  url : string;
  searchParams : option (list (string * string));
  parsedBody : option value
}.

(** The state a request runs in: the process-wide cache, the store, the
    clock ([Date.now()] returns [clock ticks], and every reading moves to
    the next tick), the calls made on the store, and the response written
    to [res] so far. *)
Record World (DB : Type) : Type := {
  cache : gmap string CacheEntry;
  db : DB;
  clock : nat -> Z;
  ticks : nat;
  calls : list StoreCall;
  res : option Response
}.
Arguments cache {DB} w.
Arguments db {DB} w.
Arguments clock {DB} w.
Arguments ticks {DB} w.
Arguments calls {DB} w.
Arguments res {DB} w.

Section Router.
Context {DB : Type} `{Store DB}.

(** A computation on the world that returns or throws. *)
Definition M (A : Type) : Type := World DB -> outcome A * World DB.

Definition ret {A} (a : A) : M A := fun w => (Returned a, w).

Definition bind {A B} (m : M A) (k : A -> M B) : M B :=
  fun w =>
    match m w with
    | (Returned a, w') => k a w'
    | (Thrown, w') => (Thrown, w')
    end.

Definition throw {A} : M A := fun w => (Thrown, w).

(** [try { m } catch (error) { h }]. *)
Definition try_catch {A} (m : M A) (h : M A) : M A :=
  fun w =>
    match m w with
    | (Returned a, w') => (Returned a, w')
    | (Thrown, w') => h w'
    end.

Notation "x <- m ;; k" := (bind m (fun x => k))
  (at level 100, m at next level, right associativity).
Notation "m ;;; k" := (bind m (fun _ => k))
  (at level 100, right associativity).

Definition set_cache (c : gmap string CacheEntry) (w : World DB) : World DB :=
  {| cache := c; db := db w; clock := clock w; ticks := ticks w;
     calls := calls w; res := res w |}.

Definition Date_now : M Z :=
  fun w =>
    (Returned (clock w (ticks w)),
     {| cache := cache w; db := db w; clock := clock w; ticks := S (ticks w);
        calls := calls w; res := res w |}).

Definition cache_set (key : string) (d : value) : M unit :=
  now <- Date_now ;;
  fun w => (Returned tt, set_cache (setCache now key d (cache w)) w).

(** [getCache(key)] in the world.  The clock is read at every lookup; the
    source reads it only when there is an entry, and a reading changes
    nothing but the tick. *)
Definition cache_get (key : string) : M value :=
  now <- Date_now ;;
  fun w => (Returned (getCache now key (cache w)), w).

Definition cache_invalidate (prefix : string) : M unit :=
  fun w => (Returned tt, set_cache (invalidateCacheByPrefix prefix (cache w)) w).

(** [res.writeHead(status, headers); res.end(body)]. *)
Definition respond (st : Z) (hs : list (string * string)) (b : string)
  : M unit :=
  fun w =>
    (Returned tt,
     {| cache := cache w; db := db w; clock := clock w; ticks := ticks w;
        calls := calls w;
        res := Some {| status := st; headers := hs; body := b |} |}).

(** An awaited call on the store, recorded in [calls]. *)
Definition call {A} (c : StoreCall) (op : DB -> outcome A * DB) : M A :=
  fun w =>
    let '(r, db') := op (db w) in
    (r, {| cache := cache w; db := db'; clock := clock w; ticks := ticks w;
           calls := calls w ++ [c]; res := res w |}).

Definition json_headers : list (string * string) :=
  [("Content-Type", "application/json")].

(** [res.writeHead(status, json); res.end(JSON.stringify(v))]. *)
Definition send (st : Z) (v : value) : M unit :=
  respond st json_headers (JSON_stringify v).

Definition error (msg : string) : value := VObj [("error", VStr msg)].

(** *** GET /load (lines 32-61) *)
Definition load : M unit :=
  try_catch
    (call CallIngest ingest ;;;
     cache_invalidate "/users" ;;;
     respond 200 [] "")
    (send 500 (error "Failed to load data")).

(** [url.split("/")[2]]; a missing segment is [undefined], which
    [parseInt] and a template read as the text "undefined". *)
Definition segment2 (u : string) : string := nth 2 (split "/" u) "undefined".

(** *** DELETE /users/:userId (lines 64-89) *)
Definition delete_user (u : string) : M unit :=
  let userIdStr := segment2 u in
  match parseInt userIdStr None with
  | None => send 400 (error "Invalid userId")
  | Some userId =>
      try_catch
        (deletedCount <- call (CallDeleteOne userId) (deleteOne userId) ;;
         if deletedCount =? 0
         then send 404 (error "User not found")
         else
           cache_invalidate "/users" ;;;
           send 200 (VObj [("message", VStr "User deleted successfully")]))
        (send 500 (error "Failed to delete user"))
  end.

(** The key of a single-entity read (line 94). *)
Definition userKey (userId : Z) : string := "/users/" +:+ Z_to_string userId.

(** *** GET /users/:userId (lines 92-121).  The path is all digits after
    [/users/], so [parseInt] gives a number ([parseInt_user_path]). *)
Definition get_user (u : string) : M unit :=
  match parseInt (segment2 u) None with
  | None => ret tt
  | Some userId =>
      let cacheKey := userKey userId in
      cachedData <- cache_get cacheKey ;;
      if truthy cachedData
      then send 200 (VObj (obj_set "cached" (VBool true) (spread cachedData)))
      else
        try_catch
          (user <- call (CallFindOne userId) (findOne userId) ;;
           match user with
           | None => send 404 (error "User not found")
           | Some user =>
               let responseData :=
                 VObj [("user", user); ("cached", VBool false)] in
               cache_set cacheKey responseData ;;;
               send 200 responseData
           end)
          (send 500 (error "Failed to fetch user"))
  end.

(** [searchParams.get(name)]: the first value under the name. *)
Definition searchParams_get (req : Request) (name : string) : option string :=
  match searchParams req with
  | Some params => assoc name params
  | None => None
  end.

(** [x || d] for a string or [null]. *)
Definition or_default (x : option string) (d : string) : string :=
  match x with
  | Some s => if String.eqb s "" then d else s
  | None => d
  end.

Definition validSortFields : list string := ["id"; "name"; "username"; "email"].

Definition includes (l : list string) (s : string) : bool :=
  existsb (String.eqb s) l.

(** The normalized parameters of a collection read (lines 126-130). *)
Definition page_of (req : Request) : option Z :=
  parseInt (or_default (searchParams_get req "page") "1") (Some 10).
Definition limit_of (req : Request) : option Z :=
  parseInt (or_default (searchParams_get req "limit") "5") (Some 10).
Definition search_of (req : Request) : string :=
  or_default (toLowerCase <$> searchParams_get req "search") "".
Definition sortBy_of (req : Request) : string :=
  or_default (searchParams_get req "sortBy") "id".
Definition order_of (req : Request) : Z :=
  match searchParams_get req "order" with
  | Some o => if String.eqb o "desc" then -1 else 1
  | None => 1
  end.

(** The filter of lines 148-156. *)
Definition search_query (search : string) : query :=
  if String.eqb search "" then QAll
  else QOr [Regex "name" search "i";
            Regex "username" search "i";
            Regex "email" search "i"].

(** The key of a collection read (line 158). *)
Definition collectionKey (page limit : Z) (search sortBy : string) (order : Z)
  : string :=
  JSON_stringify
    (VObj [("page", VNum page); ("limit", VNum limit); ("search", VStr search);
           ("sortBy", VStr sortBy); ("order", VNum order)]).

Definition invalid_sortBy : string :=
  "Invalid sortBy field. Must be one of: " +:+ join ", " validSortFields.

(** *** GET /users?page=1&limit=5 (lines 124-196).  The [new URL] of line
    125 is outside every [try]: when it throws, the exception leaves the
    router. *)
Definition list_users (req : Request) : M unit :=
  match searchParams req with
  | None => throw
  | Some _ =>
  let search := search_of req in
  let sortBy := sortBy_of req in
  let order := order_of req in
  match page_of req, limit_of req with
  | Some page, Some limit =>
      if (page <? 1) || (limit <? 1)
      then send 400 (error "Invalid page or limit value")
      else if negb (includes validSortFields sortBy)
      then send 400 (error invalid_sortBy)
      else
        let skip := (page - 1) * limit in
        let q := search_query search in
        let cacheKey := collectionKey page limit search sortBy order in
        cachedData <- cache_get cacheKey ;;
        if truthy cachedData
        then send 200 (VObj (obj_set "cached" (VBool true) (spread cachedData)))
        else
          try_catch
            (users <- call (CallFind q sortBy order skip limit)
                           (find q sortBy order skip limit) ;;
             totalUsers <- call (CallCountDocuments q) (countDocuments q) ;;
             let responseData :=
               VObj [("page", VNum page); ("limit", VNum limit);
                     ("totalUsers", VNum totalUsers);
                     ("totalPages", VNum (Math_ceil_div totalUsers limit));
                     ("users", VArr users); ("cached", VBool false)] in
             cache_set cacheKey responseData ;;;
             send 200 responseData)
            (send 500 (error "Failed to fetch users"))
  | _, _ => send 400 (error "Invalid page or limit value")
  end
  end.

(** The document after [insertOne]: the driver has written the [_id] it
    generated into the object passed to it. *)
Definition with_id (doc : value) (oid : option value) : value :=
  match oid with
  | Some i => VObj (obj_set "_id" i (spread doc))
  | None => doc
  end.

(** *** PUT /users (lines 199-237), once the body has ended. *)
Definition put_user (req : Request) : M unit :=
  try_catch
    (match parsedBody req with
     | None => throw
     | Some newUser =>
         match truthy newUser, get_prop newUser "id" with
         | true, VNum id =>
             existingUser <- call (CallFindOne id) (findOne id) ;;
             match existingUser with
             | Some _ => send 400 (error "User already exists.")
             | None =>
                 oid <- call (CallInsertOne newUser) (insertOne newUser) ;;
                 let newUser := with_id newUser oid in
                 cache_invalidate "/users" ;;;
                 respond 201
                   (json_headers ++
                    [("Location",
                      "/users/" +:+ template (get_prop newUser "id"))])
                   (JSON_stringify newUser)
             end
         | _, _ => send 400 (error "Invalid user data")
         end
     end)
    (send 500 (error "Failed to add user")).

Definition is_digit (c : ascii) : bool :=
  let n := N_of_ascii c in ((48 <=? n) && (n <=? 57))%N.

Fixpoint all_digits (s : string) : bool :=
  match s with
  | EmptyString => true
  | String c s' => is_digit c && all_digits s'
  end.

Fixpoint strip_prefix (p s : string) : option string :=
  match p, s with
  | EmptyString, _ => Some s
  | String a p', String b s' => if Ascii.eqb a b then strip_prefix p' s' else None
  | String _ _, EmptyString => None
  end.

(** [/^\/users\/\d+$/.test(u)]. *)
Definition test_user_path (u : string) : bool :=
  match strip_prefix "/users/" u with
  | Some ds => negb (String.eqb ds "") && all_digits ds
  | None => false
  end.

(** *** The router (lines 27-238) *)
Definition userRouter (req : Request) : M unit :=
  let method := method req in
  let url := url req in
  if String.eqb method "GET" && String.eqb url "/load" then load
  else if String.eqb method "DELETE" && startsWith url "/users/"
  then delete_user url
  else if String.eqb method "GET" && test_user_path url then get_user url
  else if String.eqb method "GET" && startsWith url "/users"
  then list_users req
  else if String.eqb method "PUT" && String.eqb url "/users" then put_user req
  else ret tt.

(** The world a request leaves behind. *)
Definition handle (req : Request) (w : World DB) : World DB :=
  snd (userRouter req w).

(** The world in which the next request starts: the same process, a fresh
    [res] and an empty record of calls. *)
Definition next_request (w : World DB) : World DB :=
  {| cache := cache w; db := db w; clock := clock w; ticks := ticks w;
     calls := []; res := None |}.

(** The process serving requests one after the other. *)
Definition serve (reqs : list Request) (w : World DB) : World DB :=
  fold_left (fun w' req => handle req (next_request w')) reqs w.

End Router.

(** ** What the store makes of a filter

    Not code of the repository: a reference reading of the [$regex] of the
    document store, which searches a Perl-compatible regular expression
    anywhere in the field.  The fragment read here: an ordinary character
    stands for itself, a dot for any character but a line feed; a pattern
    with another metacharacter is outside the fragment ([None]).  Option
    [i] compares letters without case.  The router's theorems do not depend
    on it; it serves the runs on the reference store. *)

Inductive atom : Type :=
| Lit (c : ascii)
| AnyChar.

Definition metacharacters : list ascii :=
  [backslash; "^"; "$"; "."; "|"; "?"; "*"; "+"; "("; ")"; "["; "]"; "{"; "}"]%char.

Definition is_meta (c : ascii) : bool := existsb (Ascii.eqb c) metacharacters.

Fixpoint atoms (pattern : string) : option (list atom) :=
  match pattern with
  | EmptyString => Some []
  | String c p =>
      if Ascii.eqb c "." then cons AnyChar <$> atoms p
      else if is_meta c then None
      else cons (Lit c) <$> atoms p
  end.

Definition atom_matches (caseless : bool) (a : atom) (c : ascii) : bool :=
  match a with
  | Lit x =>
      if caseless then Ascii.eqb (lower_char x) (lower_char c) else Ascii.eqb x c
  | AnyChar => negb (Ascii.eqb c "010")
  end.

Fixpoint match_here (caseless : bool) (l : list atom) (s : string) : bool :=
  match l, s with
  | [], _ => true
  | a :: l', String c s' => atom_matches caseless a c && match_here caseless l' s'
  | _ :: _, EmptyString => false
  end.

Fixpoint match_anywhere (caseless : bool) (l : list atom) (s : string) : bool :=
  match_here caseless l s ||
  match s with
  | String _ s' => match_anywhere caseless l s'
  | EmptyString => false
  end.

Definition caseless_of (options : string) : option bool :=
  if String.eqb options "" then Some false
  else if String.eqb options "i" then Some true
  else None.

(** The strings a field holds for a match: the field itself, or the
    elements of an array. *)
Definition field_strings (doc : value) (field : string) : list string :=
  match get_prop doc field with
  | VStr s => [s]
  | VArr items =>
      somes (map (fun i => match i with VStr s => Some s | _ => None end) items)
  | _ => []
  end.

Definition holds (p : predicate) (doc : value) : option bool :=
  match p with
  | Regex field pattern options =>
      match atoms pattern, caseless_of options with
      | Some l, Some caseless =>
          Some (existsb (match_anywhere caseless l) (field_strings doc field))
      | _, _ => None
      end
  end.

Fixpoint holds_any (ps : list predicate) (doc : value) : option bool :=
  match ps with
  | [] => Some false
  | p :: ps' =>
      match holds p doc, holds_any ps' doc with
      | Some b, Some b' => Some (b || b')
      | _, _ => None
      end
  end.

(** Whether the filter selects the document. *)
Definition selects (q : query) (doc : value) : option bool :=
  match q with
  | QAll => Some true
  | QOr ps => holds_any ps doc
  end.

(** ** A reference store in memory

    The documents in insertion order, a counter for generated [_id]s, and
    what the remote source delivers to an ingestion.  Unique indexes and
    patterns outside the fragment above are not modelled (the latter
    throw). *)
Module MemStore.

Record t : Type := {
  docs : list value;
  next_oid : Z;
  remote : outcome (list value)
}.

Definition has_id (id : Z) (doc : value) : bool :=
  match get_prop doc "id" with
  | VNum n => n =? id
  | VArr items =>
      existsb (fun i => match i with VNum n => n =? id | _ => false end) items
  | _ => false
  end.

Definition with_docs (l : list value) (s : t) : t :=
  {| docs := l; next_oid := next_oid s; remote := remote s |}.

Definition mem_findOne (id : Z) (s : t) : outcome (option value) * t :=
  (Returned (List.find (has_id id) (docs s)), s).

Definition mem_insertOne (doc : value) (s : t) : outcome (option value) * t :=
  match get_prop doc "_id" with
  | VUndefined | VNull =>
      let oid := VStr ("oid" +:+ Z_to_string (next_oid s)) in
      (Returned (Some oid),
       {| docs := docs s ++ [VObj (obj_set "_id" oid (spread doc))];
          next_oid := next_oid s + 1; remote := remote s |})
  | _ => (Returned None, with_docs (docs s ++ [doc]) s)
  end.

Fixpoint remove_first (f : value -> bool) (l : list value)
  : option (list value) :=
  match l with
  | [] => None
  | d :: l' => if f d then Some l' else cons d <$> remove_first f l'
  end.

Definition mem_deleteOne (id : Z) (s : t) : outcome Z * t :=
  match remove_first (has_id id) (docs s) with
  | Some l => (Returned 1, with_docs l s)
  | None => (Returned 0, s)
  end.

(** The documents a filter selects, if it is in the fragment. *)
Fixpoint selected (q : query) (l : list value) : option (list value) :=
  match l with
  | [] => Some []
  | d :: l' =>
      match selects q d, selected q l' with
      | Some true, Some r => Some (d :: r)
      | Some false, Some r => Some r
      | _, _ => None
      end
  end.

(** The order of sort keys: a missing or null key first, then numbers by
    value, then strings by their bytes, then anything else. *)
Definition rank (v : value) : Z :=
  match v with
  | VUndefined | VNull => 0
  | VNum _ => 1
  | VStr _ => 2
  | _ => 3
  end.

Definition key_leb (a b : value) : bool :=
  match a, b with
  | VNum x, VNum y => x <=? y
  | VStr x, VStr y => String.leb x y
  | _, _ => rank a <=? rank b
  end.

Definition doc_leb (sortBy : string) (order : Z) (a b : value) : bool :=
  if order <? 0 then key_leb (get_prop b sortBy) (get_prop a sortBy)
  else key_leb (get_prop a sortBy) (get_prop b sortBy).

Fixpoint insert_sorted (leb : value -> value -> bool) (d : value)
    (l : list value) : list value :=
  match l with
  | [] => [d]
  | x :: l' => if leb x d then x :: insert_sorted leb d l' else d :: l
  end.

Definition sort_docs (leb : value -> value -> bool) (l : list value)
  : list value :=
  fold_left (fun acc d => insert_sorted leb d acc) l [].

Definition mem_find (q : query) (sortBy : string) (order skip limit : Z)
    (s : t) : outcome (list value) * t :=
  match selected q (docs s) with
  | Some l =>
      (Returned
         (take (Z.to_nat limit)
            (drop (Z.to_nat skip) (sort_docs (doc_leb sortBy order) l))), s)
  | None => (Thrown, s)
  end.

Definition mem_countDocuments (q : query) (s : t) : outcome Z * t :=
  match selected q (docs s) with
  | Some l => (Returned (Z.of_nat (length l)), s)
  | None => (Thrown, s)
  end.

Definition mem_ingest (s : t) : outcome unit * t :=
  match remote s with
  | Returned users =>
      (Returned tt,
       fold_left (fun s' u => snd (mem_insertOne u s')) users s)
  | Thrown => (Thrown, s)
  end.

#[global] Instance store : Store t := {|
  findOne := mem_findOne;
  insertOne := mem_insertOne;
  deleteOne := mem_deleteOne;
  find := mem_find;
  countDocuments := mem_countDocuments;
  ingest := mem_ingest
|}.

(** A world of the reference store at the start of a request. *)
Definition world (c : gmap string CacheEntry) (s : t) (clk : nat -> Z)
  : World t :=
  {| cache := c; db := s; clock := clk; ticks := 0; calls := []; res := None |}.

End MemStore.

(** ** Readers of numbers and string literals

    Used to show that a key is read back unambiguously. *)

(** Every character of [s] satisfies [P]. *)
Fixpoint all_chars (P : ascii -> bool) (s : string) : bool :=
  match s with
  | EmptyString => true
  | String c s' => P c && all_chars P s'
  end.

(** [r] is empty or starts with a character that does not satisfy [P]. *)
Definition stops (P : ascii -> bool) (r : string) : Prop :=
  match r with
  | EmptyString => True
  | String c _ => P c = false
  end.

Definition num_char (c : ascii) : bool := is_digit c || Ascii.eqb c "-".

Definition hex_value (c : ascii) : option N :=
  let n := N_of_ascii c in
  if ((48 <=? n) && (n <=? 57))%N then Some (n - 48)%N
  else if ((97 <=? n) && (n <=? 102))%N then Some (n - 87)%N
  else None.

Definition short_escape (c : ascii) : option ascii :=
  if Ascii.eqb c dquote then Some dquote
  else if Ascii.eqb c backslash then Some backslash
  else if Ascii.eqb c "b" then Some "008"%char
  else if Ascii.eqb c "f" then Some "012"%char
  else if Ascii.eqb c "n" then Some "010"%char
  else if Ascii.eqb c "r" then Some "013"%char
  else if Ascii.eqb c "t" then Some "009"%char
  else None.

(** Reads the inside of a string literal up to its closing quote: the
    characters it stands for, and what follows the quote. *)
Fixpoint read_string (s : string) : option (string * string) :=
  match s with
  | EmptyString => None
  | String c s' =>
      if Ascii.eqb c dquote then Some ("", s')
      else if Ascii.eqb c backslash then
        match s' with
        | String e s'' =>
            if Ascii.eqb e "u" then
              match s'' with
              | String _ (String _ (String h (String l r))) =>
                  match hex_value h, hex_value l, read_string r with
                  | Some a, Some b, Some (t, rest) =>
                      Some (String (ascii_of_N (16 * a + b)) t, rest)
                  | _, _, _ => None
                  end
              | _ => None
              end
            else
              match short_escape e, read_string s'' with
              | Some x, Some (t, rest) => Some (String x t, rest)
              | _, _ => None
              end
        | EmptyString => None
        end
      else
        match read_string s' with
        | Some (t, rest) => Some (String c t, rest)
        | None => None
        end
  end.

(** Whether the escape of a character is one of the three forms that
    [read_string] reads back: the character itself, a short escape, or four
    hex digits. *)
Definition reads_back (c : ascii) : bool :=
  match escape_char c with
  | String x EmptyString =>
      Ascii.eqb x c && negb (Ascii.eqb c dquote) && negb (Ascii.eqb c backslash)
  | String x (String e EmptyString) =>
      Ascii.eqb x backslash && negb (Ascii.eqb e "u") &&
      match short_escape e with
      | Some c' => Ascii.eqb c' c
      | None => false
      end
  | String x (String e (String _ (String _ (String h (String l EmptyString))))) =>
      Ascii.eqb x backslash && Ascii.eqb e "u" &&
      match hex_value h, hex_value l with
      | Some a, Some b => Ascii.eqb (ascii_of_N (16 * a + b)) c
      | _, _ => false
      end
  | _ => false
  end.

(** ** The vocabulary of the statements *)

(** The response [res.writeHead(st, json); res.end(JSON.stringify(v))]. *)
Definition reply (st : Z) (v : value) : Response :=
  {| status := st; headers := json_headers; body := JSON_stringify v |}.

(** The conditions under which the router takes a route. *)
Definition is_GET (req : Request) : bool := String.eqb (method req) "GET".
Definition is_load (req : Request) : bool := is_GET req && String.eqb (url req) "/load".
Definition is_delete_user (req : Request) : bool :=
  String.eqb (method req) "DELETE" && startsWith (url req) "/users/".
Definition is_get_user (req : Request) : bool := is_GET req && test_user_path (url req).
Definition is_list_users (req : Request) : bool :=
  is_GET req && startsWith (url req) "/users" && negb (test_user_path (url req)).
Definition is_put_user (req : Request) : bool :=
  String.eqb (method req) "PUT" && String.eqb (url req) "/users".

Definition handled (req : Request) : bool :=
  is_load req || is_delete_user req || is_get_user req || is_list_users req
  || is_put_user req.

(** What the validation of a collection read rejects (line 132): a page or
    a limit that [parseInt] does not read as a number, or that is below 1. *)
Definition below_one (x : option Z) : Prop :=
  match x with Some n => n < 1 | None => False end.

Definition invalid_paging (req : Request) : Prop :=
  page_of req = None \/ limit_of req = None \/
  below_one (page_of req) \/ below_one (limit_of req).

(** [t] is the ceiling of the quotient [a / b], for [b > 0]: the integer
    with [t - 1 < a / b <= t]. *)
Definition is_ceiling (t a b : Z) : Prop := b * (t - 1) < a <= b * t.

(** The payload of a collection read of the given page and limit, with its
    arithmetic. *)
Definition page_payload (page limit : Z) (v : value) : Prop :=
  exists totalUsers totalPages users cached,
    v = VObj [("page", VNum page); ("limit", VNum limit);
              ("totalUsers", VNum totalUsers); ("totalPages", VNum totalPages);
              ("users", VArr users); ("cached", VBool cached)] /\
    is_ceiling totalPages totalUsers limit.


(** [needle] occurs in [s] as a literal substring, letters compared without
    case. *)
Definition contains_ci (needle s : string) : Prop :=
  exists l r, toLowerCase s = l +:+ toLowerCase needle +:+ r.

(** ** A scenario on the reference store *)

Module Scenario.
Import MemStore.

Definition alice : value :=
  VObj [("id", VNum 1); ("name", VStr "Alice"); ("username", VStr "al");
        ("email", VStr "alice@example.org")].

Definition bob : value := VObj [("id", VNum 2); ("name", VStr "bob")].

Definition request (m u : string) (q : list (string * string))
    (b : option value) : Request :=
  {| method := m; url := u; searchParams := Some q; parsedBody := b |}.

(** A store that holds [alice], and a clock that advances one second per
    reading. *)
Definition store1 : MemStore.t :=
  {| docs := [alice]; next_oid := 0; remote := Thrown |}.

Definition seconds (n : nat) : Z := 1000 * Z.of_nat n.

Definition world1 : World MemStore.t := MemStore.world ∅ store1 seconds.

(** A store that holds [alice] and [bob]. *)
Definition store_both : MemStore.t :=
  {| docs := [alice; bob]; next_oid := 0; remote := Thrown |}.

Definition world_both : World MemStore.t := MemStore.world ∅ store_both seconds.

End Scenario.

(** ** Further vocabulary: reads, writes and the shape of the cache *)

(** [Number.isSafeInteger(n)]: the integers on which the numbers of the
    runtime are exact. *)
Definition safe_integer (n : Z) : Prop := - 2 ^ 53 < n < 2 ^ 53.

(** The calls on the store that only read. *)
Definition is_read_call (c : StoreCall) : bool :=
  match c with
  | CallFindOne _ | CallFind _ _ _ _ _ | CallCountDocuments _ => true
  | CallInsertOne _ | CallDeleteOne _ | CallIngest => false
  end.

(** The three routes that write to the store. *)
Definition is_write (req : Request) : bool :=
  is_load req || is_delete_user req || is_put_user req.

(** A response that reports success. *)
Definition succeeded (r : Response) : bool :=
  (status r =? 200) || (status r =? 201).

(** The payload of a single-entity read, as it is cached. *)
Definition user_payload (v : value) : Prop :=
  exists user, v = VObj [("user", user); ("cached", VBool false)].

(** The shape of a cache: an entry lies under the key of a single-entity
    read and holds such a payload, or under the key of a collection read
    and holds a page that was not served from the cache. *)
Definition cache_shaped (c : gmap string CacheEntry) : Prop :=
  forall key e, c !! key = Some e ->
    (exists id, key = userKey id /\ user_payload (data e)) \/
    (exists page limit search sortBy order,
       key = collectionKey page limit search sortBy order /\
       page_payload page limit (data e) /\
       get_prop (data e) "cached" = VBool false).

(** The shape of what the router writes to [res] for [req]: the empty 200
    of GET /load; or a JSON body with its content type and one of the
    statuses 200, 400, 404 and 500; or the 201 of PUT /users, a JSON body
    with its content type and a [Location]. *)
Definition router_response (req : Request) (r : Response) : Prop :=
  (is_load req = true /\
   r = {| status := 200; headers := []; body := "" |}) \/
  (exists st v, In st [200; 400; 404; 500] /\
     r = {| status := st; headers := [("Content-Type", "application/json")];
            body := JSON_stringify v |}) \/
  (is_put_user req = true /\
   exists loc v,
     r = {| status := 201;
            headers := [("Content-Type", "application/json"); ("Location", loc)];
            body := JSON_stringify v |}).

(** The cache key of a reading request, when the request gets as far as
    the lookup (lines 94 and 158): a single-entity read has the key of its
    id; a collection read has the key of its normalized parameters once its
    URL has been parsed (line 125) and they have passed the validations. *)
Definition read_key (req : Request) : option string :=
  if is_get_user req then userKey <$> parseInt (segment2 (url req)) None
  else if is_list_users req then
    match searchParams req, page_of req, limit_of req with
    | Some _, Some page, Some limit =>
        if (page <? 1) || (limit <? 1) then None
        else if negb (includes validSortFields (sortBy_of req)) then None
        else Some (collectionKey page limit (search_of req) (sortBy_of req)
                     (order_of req))
    | _, _, _ => None
    end
  else None.

Definition is_read (req : Request) : bool := is_get_user req || is_list_users req.

(** Requests and worlds of further runs on the reference store. *)
Module Requests.
Import MemStore Scenario.

Definition get_alice : Request := request "GET" "/users/1" [] None.
Definition get_alice' : Request := request "GET" "/users/001" [] None.
Definition get_page : Request := request "GET" "/users" [] None.
Definition put_bob : Request := request "PUT" "/users" [] (Some bob).
Definition delete_nobody : Request := request "DELETE" "/users/9" [] None.
Definition get_load : Request := request "GET" "/load" [] None.

(** The world after [alice] has been read and cached. *)
Definition world2 : World MemStore.t := next_request (handle get_alice world1).

(** The world after the first page has been read and cached. *)
Definition world3 : World MemStore.t := next_request (handle get_page world1).

End Requests.

(** ** The ingestion of GET /load (lines 34-50)

    The loop is read with the types of its casts: the users fetched are
    objects, of which the loop reads [id] and writes [posts]; a post is a
    [Post] of [types/post.ts]; a comment is any value. *)

(** [interface Post]. *)
Module Post.
Record t : Type := {
  userId : Z;
  id : Z;
  title : string;
  body : string;
  comments : option (list value)
}.
End Post.

(** [post.comments = cs]. *)
Definition set_comments (cs : list value) (post : Post.t) : Post.t :=
  {| Post.userId := Post.userId post; Post.id := Post.id post;
     Post.title := Post.title post; Post.body := Post.body post;
     Post.comments := Some cs |}.

(** A post as a value of a document. *)
Definition post_doc (post : Post.t) : value :=
  VObj ([("userId", VNum (Post.userId post)); ("id", VNum (Post.id post));
         ("title", VStr (Post.title post)); ("body", VStr (Post.body post))]
        ++ match Post.comments post with
           | Some cs => [("comments", VArr cs)]
           | None => []
           end).

(** The remote API: [await (await fetch(url)).json()] at each of the three
    places, which returns what the cast says or throws, and leaves a new
    state of the network. *)
Class Remote (Net : Type) : Type := {
  fetch_users : string -> Net -> outcome (list (list (string * value))) * Net;
  fetch_posts : string -> Net -> outcome (list Post.t) * Net;
  fetch_comments : string -> Net -> outcome (list value) * Net
}.

(** [a.localeCompare(b)] of the runtime: negative, zero or positive. *)
Class Collation : Type := { localeCompare : string -> string -> Z }.

Definition users_url : string := "https://jsonplaceholder.typicode.com/users".

Definition posts_url (user : list (string * value)) : string :=
  "https://jsonplaceholder.typicode.com/posts?userId="
  +:+ template (get_prop (VObj user) "id").

Definition comments_url (post : Post.t) : string :=
  "https://jsonplaceholder.typicode.com/comments?postId="
  +:+ Z_to_string (Post.id post).

Section Ingestion.
Context {Net DB : Type} `{Remote Net} `{Collation} `{Store DB}.

(** The inner loop (lines 41-44): the comments of every post, in order. *)
Fixpoint fetch_all_comments (posts : list Post.t) (n : Net)
  : outcome (list Post.t) * Net :=
  match posts with
  | [] => (Returned [], n)
  | post :: rest =>
      match fetch_comments (comments_url post) n with
      | (Returned cs, n1) =>
          match fetch_all_comments rest n1 with
          | (Returned rest', n2) => (Returned (set_comments cs post :: rest'), n2)
          | (Thrown, n2) => (Thrown, n2)
          end
      | (Thrown, n1) => (Thrown, n1)
      end
  end.

(** [posts.sort((a, b) => a.title.localeCompare(b.title))]: the sort is
    stable, a post goes behind the posts that do not compare above it. *)
Fixpoint insert_post (post : Post.t) (sorted : list Post.t) : list Post.t :=
  match sorted with
  | [] => [post]
  | a :: rest =>
      if localeCompare (Post.title a) (Post.title post) <=? 0
      then a :: insert_post post rest
      else post :: sorted
  end.

Definition sort_posts (posts : list Post.t) : list Post.t :=
  fold_left (fun sorted post => insert_post post sorted) posts [].

(** Lines 38-47: the document of a user, with its posts. *)
Definition user_document (user : list (string * value)) (n : Net)
  : outcome value * Net :=
  match fetch_posts (posts_url user) n with
  | (Returned posts, n1) =>
      match fetch_all_comments posts n1 with
      | (Returned posts', n2) =>
          (Returned (VObj (obj_set "posts"
                             (VArr (post_doc <$> sort_posts posts')) user)),
           n2)
      | (Thrown, n2) => (Thrown, n2)
      end
  | (Thrown, n1) => (Thrown, n1)
  end.

(** One turn of the outer loop (lines 37-50). *)
Definition ingest_user (user : list (string * value)) (s : Net * DB)
  : outcome unit * (Net * DB) :=
  match user_document user (fst s) with
  | (Returned doc, n') =>
      match insertOne doc (snd s) with
      | (Returned _, d') => (Returned tt, (n', d'))
      | (Thrown, d') => (Thrown, (n', d'))
      end
  | (Thrown, n') => (Thrown, (n', snd s))
  end.

Fixpoint ingest_users (users : list (list (string * value))) (s : Net * DB)
  : outcome unit * (Net * DB) :=
  match users with
  | [] => (Returned tt, s)
  | user :: rest =>
      match ingest_user user s with
      | (Returned _, s') => ingest_users rest s'
      | (Thrown, s') => (Thrown, s')
      end
  end.

(** Lines 34-50. *)
Definition ingest_loop (s : Net * DB) : outcome unit * (Net * DB) :=
  match fetch_users users_url (fst s) with
  | (Returned users, n') => ingest_users users (n', snd s)
  | (Thrown, n') => (Thrown, (n', snd s))
  end.

(** An operation of the store, beside the network. *)
Definition on_store {A} (op : DB -> outcome A * DB) (s : Net * DB)
  : outcome A * (Net * DB) :=
  let '(r, d') := op (snd s) in (r, (fst s, d')).

(** The store together with the network it is fed from: [ingest] is the
    loop. *)
Definition remote_store : Store (Net * DB) := {|
  findOne id := on_store (findOne id);
  insertOne doc := on_store (insertOne doc);
  deleteOne id := on_store (deleteOne id);
  find q sortBy order skip limit := on_store (find q sortBy order skip limit);
  countDocuments q := on_store (countDocuments q);
  ingest := ingest_loop
|}.

(** The documents of the users, as the loop fetches them, without the
    inserts. *)
Fixpoint documents (users : list (list (string * value))) (n : Net)
  : outcome (list value) * Net :=
  match users with
  | [] => (Returned [], n)
  | user :: rest =>
      match user_document user n with
      | (Returned doc, n1) =>
          match documents rest n1 with
          | (Returned docs, n2) => (Returned (doc :: docs), n2)
          | (Thrown, n2) => (Thrown, n2)
          end
      | (Thrown, n1) => (Thrown, n1)
      end
  end.

(** [insertOne] of each document in order, up to the first that throws. *)
Fixpoint insert_all (docs : list value) (d : DB) : outcome unit * DB :=
  match docs with
  | [] => (Returned tt, d)
  | doc :: rest =>
      match insertOne doc d with
      | (Returned _, d') => insert_all rest d'
      | (Thrown, d') => (Thrown, d')
      end
  end.

(** The order of the titles. *)
Definition title_le (a b : Post.t) : Prop :=
  localeCompare (Post.title a) (Post.title b) <= 0.

(** [posts'] are the [posts], each with the comments fetched for it: the
    fetches of lines 41-44 in the order of the posts, from the network [n]
    to the network [n']. *)
Inductive comments_fetched : Net -> list Post.t -> list Post.t -> Net -> Prop :=
| comments_fetched_nil n : comments_fetched n [] [] n
| comments_fetched_cons n post cs n1 rest rest' n' :
    fetch_comments (comments_url post) n = (Returned cs, n1) ->
    comments_fetched n1 rest rest' n' ->
    comments_fetched n (post :: rest) (set_comments cs post :: rest') n'.

End Ingestion.

(** A remote API with two users, and a store fed from it. *)
Module Placeholder.
Import MemStore Scenario.

Definition carol : list (string * value) := [("id", VNum 3); ("name", VStr "Carol")].
Definition dave : list (string * value) := [("id", VNum 4); ("name", VStr "Dave")].

Definition post (user number : Z) (text : string) : Post.t :=
  {| Post.userId := user; Post.id := number; Post.title := text;
     Post.body := ""; Post.comments := None |}.

(** The network is the number of fetches it still answers; after that
    every fetch throws. *)
Definition answer {A} (a : A) (left : nat) : outcome A * nat :=
  match left with
  | O => (Thrown, O)
  | S left' => (Returned a, left')
  end.

#[export] Instance remote : Remote nat := {|
  fetch_users _ := answer [carol; dave];
  fetch_posts url :=
    answer (if String.eqb url (posts_url carol)
            then [post 3 31 "zebra"; post 3 32 "apple"] else []);
  fetch_comments _ := answer [VStr "first"]
|}.

(** Titles compared by their first character. *)
Definition first_code (s : string) : Z :=
  match s with
  | String c _ => Z.of_N (N_of_ascii c)
  | EmptyString => 0
  end.

#[export] Instance by_first_character : Collation :=
  {| localeCompare a b := first_code a - first_code b |}.

(** The document of [carol]: the posts in the order of their titles, each
    with its comments. *)
Definition carol_document : value :=
  VObj [("id", VNum 3); ("name", VStr "Carol");
        ("posts",
         VArr [post_doc (set_comments [VStr "first"] (post 3 32 "apple"));
               post_doc (set_comments [VStr "first"] (post 3 31 "zebra"))])].

(** A world whose network answers [left] fetches. *)
Definition world_net (left : nat) : World (nat * MemStore.t) :=
  {| cache := ∅; db := (left, store1); clock := seconds; ticks := 0;
     calls := []; res := None |}.

End Placeholder.

(** ** The connection to the database (db.ts) *)

Module Connection.

(** The client of the driver: what the [k]-th call of [client.connect()]
    does, and [client.db(name)], which returns a handle or throws. *)
Class Client (Db : Type) : Type := {
  connect : string -> nat -> outcome unit;
  client_db : string -> outcome Db;
  databaseName : Db -> string
}.

(** The state of the module: [let db: Db], the calls of [client.connect()]
    made so far, and the lines written to the console. *)
Record State (Db : Type) : Type := {
  db : option Db;
  attempts : nat;
  console : list string
}.
Arguments db {Db} s.
Arguments attempts {Db} s.
Arguments console {Db} s.

Section ConnectDB.
Context {Db : Type} `{Client Db}.
Variable env : string -> option string.

(** [process.env.MONGO_URI || "mongodb://127.0.0.1:27017"]. *)
Definition url : string := or_default (env "MONGO_URI") "mongodb://127.0.0.1:27017".

(** [process.env.DB_NAME || "node_assignment"]. *)
Definition dbName : string := or_default (env "DB_NAME") "node_assignment".

Definition connectDB (s : State Db) : outcome Db * State Db :=
  match db s with
  | Some handle => (Returned handle, s)
  | None =>
      let s1 := {| db := None; attempts := S (attempts s);
                   console := console s |} in
      match connect url (attempts s) with
      | Thrown => (Thrown, s1)
      | Returned _ =>
          match client_db dbName with
          | Thrown => (Thrown, s1)
          | Returned handle =>
              (Returned handle,
               {| db := Some handle; attempts := S (attempts s);
                  console := console s ++
                    ["Connected to MongoDB: " +:+ databaseName handle] |})
          end
      end
  end.

(** [calls] calls of [connectDB], one after the other; the last outcome. *)
Fixpoint connectDB_times (calls : nat) (s : State Db)
  : list (outcome Db) * State Db :=
  match calls with
  | O => ([], s)
  | S calls' =>
      let '(r, s1) := connectDB s in
      let '(rs, s2) := connectDB_times calls' s1 in
      (r :: rs, s2)
  end.

End ConnectDB.

End Connection.

(** A client whose first [connect] fails and whose later ones succeed; a
    handle is its name. *)
Module Flaky.
Import Connection.

#[export] Instance client : Client string := {|
  connect _ k := match k with O => Thrown | S _ => Returned tt end;
  client_db name := Returned name;
  databaseName name := name
|}.

Definition no_env (name : string) : option string := None.

Definition start : State string := {| db := None; attempts := 0; console := [] |}.

End Flaky.



(** A reference store whose [countDocuments] throws. *)
Module Broken.
Import MemStore.

Definition store : Store MemStore.t := {|
  findOne := mem_findOne;
  insertOne := mem_insertOne;
  deleteOne := mem_deleteOne;
  find := mem_find;
  countDocuments q s := (Thrown, s);
  ingest := mem_ingest
|}.

End Broken.

(** * Properties *)

(** ** The cache store: lookups *)

Section CacheStore.
Implicit Types (cache : gmap string CacheEntry) (key prefix : string).

Lemma CACHE_TTL_value : CACHE_TTL = 300000.
Proof. reflexivity. Qed.

Lemma elem_of_Object_keys cache key :
  key ∈ Object_keys cache <-> is_Some (cache !! key).
Proof.
  unfold Object_keys. rewrite list_elem_of_fmap. split.
  - intros [[k e] [-> Hin]]. apply elem_of_map_to_list in Hin. eauto.
  - intros [e He]. exists (key, e). split; [done|].
    by apply elem_of_map_to_list.
Qed.

Lemma invalidate_pass_lookup prefix (keys : list string) cache key :
  fold_left (fun c k => if startsWith k prefix then delete k c else c)
    keys cache !! key
  = if startsWith key prefix && bool_decide (key ∈ keys)
    then None else cache !! key.
Proof.
  revert cache. induction keys as [|k keys IH]; intros cache; simpl.
  - by rewrite andb_false_r.
  - rewrite IH. destruct (startsWith key prefix) eqn:Hkey; simpl.
    + destruct (decide (key = k)) as [->|Hne].
      * rewrite Hkey, lookup_delete_eq.
        rewrite (bool_decide_eq_true_2 (k ∈ k :: keys)) by set_solver.
        by destruct (bool_decide (k ∈ keys)).
      * rewrite (bool_decide_ext (key ∈ k :: keys) (key ∈ keys))
          by (rewrite elem_of_cons; tauto).
        destruct (bool_decide (key ∈ keys)); [done|].
        destruct (startsWith k prefix); [|done].
        by rewrite lookup_delete_ne.
    + destruct (startsWith k prefix) eqn:Hk; [|done].
      rewrite lookup_delete_ne; [done|]. intros ->. congruence.
Qed.

Lemma lookup_invalidate prefix cache key :
  invalidateCacheByPrefix prefix cache !! key
  = if startsWith key prefix then None else cache !! key.
Proof.
  unfold invalidateCacheByPrefix. rewrite invalidate_pass_lookup.
  destruct (startsWith key prefix); simpl; [|done].
  case_bool_decide as Hin; [done|].
  rewrite elem_of_Object_keys in Hin.
  symmetry. by apply eq_None_not_Some in Hin.
Qed.

Lemma getCache_absent now key cache :
  cache !! key = None -> getCache now key cache = VNull.
Proof. unfold getCache. by intros ->. Qed.

End CacheStore.

(** ** The cache store *)

(** C2. An entry put under [k] at time [t0] is read back by [getCache] at
    time [t] as long as [t - t0] is at most the TTL, which is 300000 ms;
    once [t - t0] exceeds the TTL the read is [null], the same as the read
    of a cache that has no entry under [k]. *)
Theorem getCache_setCache_ttl (cache : gmap string CacheEntry)
    (k : string) (v : value) (t0 t : Z) :
  CACHE_TTL = 300000 /\
  (t - t0 <= CACHE_TTL -> getCache t k (setCache t0 k v cache) = v) /\
  (t - t0 > CACHE_TTL ->
     getCache t k (setCache t0 k v cache) = VNull /\
     getCache t k (setCache t0 k v cache)
     = getCache t k (delete k (setCache t0 k v cache))).
Proof.
  split; [reflexivity|].
  unfold getCache, setCache. rewrite lookup_insert_eq, lookup_delete_eq. simpl.
  split; intros Ht.
  - destruct (Z.gtb_spec (t - t0) CACHE_TTL); [lia|done].
  - destruct (Z.gtb_spec (t - t0) CACHE_TTL); [done|lia].
Qed.

(** [getCache_setCache_ttl] at the last instant of the TTL. *)
Lemma getCache_setCache_ttl_witness :
  getCache 300000 "/users/1" (setCache 0 "/users/1" (VNum 7) ∅) = VNum 7.
Proof.
  apply (proj1 (proj2 (getCache_setCache_ttl ∅ "/users/1" (VNum 7) 0 300000))).
  vm_compute. discriminate.
Defined.

(** Reading any other key is not affected by a put. *)
Lemma getCache_setCache_other cache k k' v t0 t :
  k <> k' -> getCache t k' (setCache t0 k v cache) = getCache t k' cache.
Proof. intros Hne. unfold getCache, setCache. by rewrite lookup_insert_ne. Qed.

(** C3. After [invalidateCacheByPrefix p]: every key that starts with [p]
    reads [null]; under every key that does not start with [p] the entry,
    value and timestamp, is the one from before; when no key of the cache
    starts with [p] the cache is unchanged, so a second invalidation changes
    nothing. *)
Theorem invalidate_scope (cache : gmap string CacheEntry) (p : string) :
  (forall k now, startsWith k p = true ->
     getCache now k (invalidateCacheByPrefix p cache) = VNull) /\
  (forall k, startsWith k p = false ->
     invalidateCacheByPrefix p cache !! k = cache !! k) /\
  ((forall k, is_Some (cache !! k) -> startsWith k p = false) ->
     invalidateCacheByPrefix p cache = cache) /\
  invalidateCacheByPrefix p (invalidateCacheByPrefix p cache)
  = invalidateCacheByPrefix p cache.
Proof.
  repeat split.
  - intros k now Hk. apply getCache_absent. by rewrite lookup_invalidate, Hk.
  - intros k Hk. by rewrite lookup_invalidate, Hk.
  - intros Hnone. apply map_eq. intros k. rewrite lookup_invalidate.
    destruct (startsWith k p) eqn:Hk; [|done].
    destruct (cache !! k) eqn:Hc; [|done].
    rewrite Hnone in Hk by eauto. discriminate.
  - apply map_eq. intros k. rewrite !lookup_invalidate.
    by destruct (startsWith k p).
Qed.

(** [invalidate_scope] for a prefix that no key has. *)
Lemma invalidate_scope_witness :
  invalidateCacheByPrefix "/posts" (setCache 0 "/users/1" (VNum 7) ∅)
  = setCache 0 "/users/1" (VNum 7) ∅.
Proof.
  apply (proj1 (proj2 (proj2
           (invalidate_scope (setCache 0 "/users/1" (VNum 7) ∅) "/posts")))).
  intros k [e He]. unfold setCache in He.
  destruct (decide (k = "/users/1")) as [->|Hne].
  - reflexivity.
  - rewrite lookup_insert_ne, lookup_empty in He by done. discriminate.
Defined.

(** ** Strings: appending, numbers, and the escaping of JSON strings *)

Section Strings.
Implicit Types (s t r : string) (c : ascii).

Lemma append_nil_l s : "" +:+ s = s.
Proof. reflexivity. Qed.

Lemma append_cons c s t : String c s +:+ t = String c (s +:+ t).
Proof. reflexivity. Qed.

Lemma append_assoc s t r : (s +:+ t) +:+ r = s +:+ (t +:+ r).
Proof.
  induction s as [|c s IH]; [reflexivity|].
  rewrite !append_cons. by rewrite IH.
Qed.

(** A string whose characters all satisfy [P], followed by a rest that
    does not start with such a character, is read off unambiguously. *)
Lemma span_unique (P : ascii -> bool) s t r r' :
  all_chars P s = true -> all_chars P t = true ->
  stops P r -> stops P r' ->
  s +:+ r = t +:+ r' -> s = t /\ r = r'.
Proof.
  revert t. induction s as [|c s IH]; intros [|d t] Hs Ht Hr Hr' Heq.
  - done.
  - rewrite append_nil_l, append_cons in Heq. subst r. simpl in *.
    apply andb_true_iff in Ht as [Hd _]. congruence.
  - rewrite append_nil_l, append_cons in Heq. subst r'. simpl in *.
    apply andb_true_iff in Hs as [Hc _]. congruence.
  - rewrite !append_cons in Heq. injection Heq as -> Heq.
    simpl in Hs, Ht.
    apply andb_true_iff in Hs as [_ Hs]. apply andb_true_iff in Ht as [_ Ht].
    destruct (IH t Hs Ht Hr Hr' Heq) as [-> ->]. done.
Qed.

(** *** Decimal numbers *)

Lemma string_of_uint_digits (d : Decimal.uint) :
  all_chars num_char (NilEmpty.string_of_uint d) = true.
Proof. induction d; simpl; auto. Qed.

Lemma Z_to_string_chars (n : Z) : all_chars num_char (Z_to_string n) = true.
Proof.
  unfold Z_to_string.
  destruct (Z.to_int n) as [d|d]; simpl;
    destruct d; simpl; auto using string_of_uint_digits.
Qed.

Lemma Z_to_int_proper (n : Z) :
  Z.to_int n <> Decimal.Pos Decimal.Nil /\ Z.to_int n <> Decimal.Neg Decimal.Nil.
Proof.
  destruct n as [|p|p]; simpl; split; try discriminate;
    intros [= Hp]; by apply (DecimalPos.Unsigned.to_uint_nonnil p).
Qed.

Lemma Z_to_string_inj (a b : Z) : Z_to_string a = Z_to_string b -> a = b.
Proof.
  unfold Z_to_string. intros Heq.
  apply DecimalZ.to_int_inj.
  destruct (Z_to_int_proper a) as [Ha1 Ha2], (Z_to_int_proper b) as [Hb1 Hb2].
  pose proof (NilZero.isi _ Ha1 Ha2) as Ia.
  pose proof (NilZero.isi _ Hb1 Hb2) as Ib.
  rewrite Heq in Ia. congruence.
Qed.

(** A number followed by a character that no number contains. *)
Lemma number_frame (a b : Z) r r' :
  stops num_char r -> stops num_char r' ->
  Z_to_string a +:+ r = Z_to_string b +:+ r' -> a = b /\ r = r'.
Proof.
  intros Hr Hr' Heq.
  destruct (span_unique num_char _ _ _ _
              (Z_to_string_chars a) (Z_to_string_chars b) Hr Hr' Heq)
    as [Hab ->].
  split; [by apply Z_to_string_inj|done].
Qed.

(** *** Escaped strings: a reader that undoes [escape] *)

Lemma reads_back_all c : reads_back c = true.
Proof.
  destruct c as [[|] [|] [|] [|] [|] [|] [|] [|]]; vm_compute; reflexivity.
Qed.

Lemma read_string_escape_char c tail s rest :
  read_string tail = Some (s, rest) ->
  read_string (escape_char c +:+ tail) = Some (String c s, rest).
Proof.
  intros Htail. pose proof (reads_back_all c) as Hc. unfold reads_back in Hc.
  destruct (escape_char c) as [|x [|e [|u1 [|u2 [|h [|l [|]]]]]]]; try discriminate.
  - (* the character itself *)
    apply andb_true_iff in Hc as [Hc Hb]. apply andb_true_iff in Hc as [Hx Hq].
    apply Ascii.eqb_eq in Hx. subst x.
    apply negb_true_iff in Hq, Hb.
    rewrite append_cons, append_nil_l. simpl. by rewrite Hq, Hb, Htail.
  - (* a short escape *)
    apply andb_true_iff in Hc as [Hc He]. apply andb_true_iff in Hc as [Hx Hu].
    apply Ascii.eqb_eq in Hx. subst x. apply negb_true_iff in Hu.
    destruct (short_escape e) as [c'|] eqn:Hse; [|discriminate].
    apply Ascii.eqb_eq in He. subst c'.
    rewrite !append_cons, append_nil_l. simpl. by rewrite Hu, Hse, Htail.
  - (* four hex digits *)
    apply andb_true_iff in Hc as [Hc Hv]. apply andb_true_iff in Hc as [Hx Hu].
    apply Ascii.eqb_eq in Hx, Hu. subst x e.
    destruct (hex_value h) as [a|] eqn:Hh; [|discriminate].
    destruct (hex_value l) as [b|] eqn:Hl; [|discriminate].
    apply Ascii.eqb_eq in Hv. subst c.
    rewrite !append_cons, append_nil_l. simpl. by rewrite Hh, Hl, Htail.
Qed.

Lemma read_string_escape s rest :
  read_string (escape s +:+ String dquote rest) = Some (s, rest).
Proof.
  induction s as [|c s IH].
  - reflexivity.
  - simpl escape. rewrite append_assoc.
    by apply read_string_escape_char.
Qed.

(** A quoted string is read off unambiguously from what follows it. *)
Lemma quote_frame s t r r' :
  escape s +:+ String dquote r = escape t +:+ String dquote r' ->
  s = t /\ r = r'.
Proof.
  intros Heq. apply (f_equal read_string) in Heq.
  rewrite !read_string_escape in Heq. by injection Heq.
Qed.

Lemma quote_inj s t : quote s = quote t -> s = t.
Proof.
  unfold quote. intros [= Heq]. by apply quote_frame in Heq as [-> _].
Qed.

End Strings.

(** ** The cache key policy *)

Section KeyPolicy.

Lemma quote_append_frame (s t r r' : string) :
  quote s +:+ r = quote t +:+ r' -> s = t /\ r = r'.
Proof.
  unfold quote. rewrite !append_cons, !append_assoc, !append_cons, !append_nil_l.
  intros [= Heq]. by apply quote_frame.
Qed.

Lemma collectionKey_unfold page limit search sortBy order :
  collectionKey page limit search sortBy order
  = String "{"
      (quote "page" +:+ String ":" (Z_to_string page +:+ String ","
      (quote "limit" +:+ String ":" (Z_to_string limit +:+ String ","
      (quote "search" +:+ String ":" (quote search +:+ String ","
      (quote "sortBy" +:+ String ":" (quote sortBy +:+ String ","
      (quote "order" +:+ String ":" (Z_to_string order +:+ "}")))))))))).
Proof.
  unfold collectionKey. cbn [JSON_stringify map somes join].
  by rewrite ?append_assoc, ?append_cons, ?append_nil_l.
Qed.

(** Reading a key back: after each number comes a comma or the closing
    brace, and each string literal ends at its closing quote. *)
Lemma collectionKey_inj (page limit : Z) (search sortBy : string)
    (order page' limit' : Z) (search' sortBy' : string) (order' : Z) :
  collectionKey page limit search sortBy order
  = collectionKey page' limit' search' sortBy' order' ->
  (page, limit, search, sortBy, order) = (page', limit', search', sortBy', order').
Proof.
  rewrite !collectionKey_unfold. intros [= Heq].
  apply number_frame in Heq as [-> [= Heq]]; [|reflexivity..].
  apply number_frame in Heq as [-> [= Heq]]; [|reflexivity..].
  rewrite ?append_assoc, ?append_cons, ?append_nil_l in Heq.
  apply quote_frame in Heq as [-> [= Heq]].
  rewrite ?append_assoc, ?append_cons, ?append_nil_l in Heq.
  apply quote_frame in Heq as [-> [= Heq]].
  apply number_frame in Heq as [-> _]; [|reflexivity..].
  reflexivity.
Qed.

(** C4. The key of a collection read is a function of the normalized
    tuple (page, limit, search, sortBy, order), and an injective one: two
    tuples have the same key exactly when they are the same tuple. *)
Theorem collectionKey_injective (page limit : Z) (search sortBy : string)
    (order page' limit' : Z) (search' sortBy' : string) (order' : Z) :
  collectionKey page limit search sortBy order
  = collectionKey page' limit' search' sortBy' order'
  <-> (page, limit, search, sortBy, order)
      = (page', limit', search', sortBy', order').
Proof.
  split.
  - apply collectionKey_inj.
  - intros Htuple. injection Htuple as -> -> -> -> ->. reflexivity.
Qed.

(** The key of a single-entity read is injective in the identifier. *)
Lemma userKey_inj (a b : Z) : userKey a = userKey b -> a = b.
Proof.
  unfold userKey. intros Heq. apply String.app_inj in Heq.
  by apply Z_to_string_inj.
Qed.

(** A collection key opens with a brace: it is no single-entity key, and
    it does not lie under the prefix ["/users"]. *)
Lemma collectionKey_brace page limit search sortBy order :
  exists rest, collectionKey page limit search sortBy order = String "{" rest.
Proof. rewrite collectionKey_unfold. eauto. Qed.

Lemma collectionKey_not_under_users page limit search sortBy order :
  startsWith (collectionKey page limit search sortBy order) "/users" = false.
Proof.
  destruct (collectionKey_brace page limit search sortBy order) as [r ->].
  reflexivity.
Qed.

(** Invalidation under ["/users"] leaves every collection key in place. *)
Lemma invalidate_users_keeps_collection (c : gmap string CacheEntry)
    page limit search sortBy order :
  invalidateCacheByPrefix "/users" c !! collectionKey page limit search sortBy order
  = c !! collectionKey page limit search sortBy order.
Proof. by rewrite lookup_invalidate, collectionKey_not_under_users. Qed.


Lemma userKey_under_users id : startsWith (userKey id) "/users" = true.
Proof.
  unfold userKey, startsWith.
  rewrite !append_cons, append_nil_l. reflexivity.
Qed.

Lemma userKey_no_brace id : startsWith (userKey id) "{" = false.
Proof. unfold userKey. rewrite append_cons. reflexivity. Qed.

End KeyPolicy.

(** ** The router *)

Section RouterProperties.
Context {DB : Type} `{Store DB}.
Implicit Types (req : Request) (w : World DB).

Ltac run :=
  unfold handle, userRouter, load, delete_user, get_user, list_users, put_user,
    send, respond, cache_get, cache_set, cache_invalidate, Date_now, call,
    try_catch, bind, ret, throw, set_cache in *;
  simpl in *.

Lemma route_load req : is_load req = true -> userRouter req = load.
Proof.
  unfold is_load, is_GET, userRouter. intros ->. reflexivity.
Qed.

Lemma route_delete_user req :
  is_delete_user req = true -> userRouter req = delete_user (url req).
Proof.
  unfold is_delete_user, userRouter. intros Hd.
  apply andb_true_iff in Hd as [Hm Hu]. rewrite Hm, Hu.
  apply String.eqb_eq in Hm. rewrite Hm. reflexivity.
Qed.

Lemma route_get_user req :
  is_get_user req = true -> userRouter req = get_user (url req).
Proof.
  unfold is_get_user, is_GET, userRouter. intros Hg.
  apply andb_true_iff in Hg as [Hm Hu]. rewrite Hm, Hu.
  apply String.eqb_eq in Hm. rewrite Hm. simpl.
  destruct (String.eqb (url req) "/load") eqn:Hl; [|reflexivity].
  apply String.eqb_eq in Hl. rewrite Hl in Hu. discriminate.
Qed.

Lemma route_list_users req :
  is_list_users req = true -> userRouter req = list_users req.
Proof.
  unfold is_list_users, is_GET, userRouter. intros Hg.
  apply andb_true_iff in Hg as [Hg Ht]. apply andb_true_iff in Hg as [Hm Hu].
  apply negb_true_iff in Ht. rewrite Hm, Hu, Ht.
  apply String.eqb_eq in Hm. rewrite Hm. simpl.
  destruct (String.eqb (url req) "/load") eqn:Hl; [|reflexivity].
  apply String.eqb_eq in Hl. rewrite Hl in Hu. discriminate.
Qed.

Lemma route_put_user req :
  is_put_user req = true -> userRouter req = put_user req.
Proof.
  unfold is_put_user, userRouter. intros Hp.
  apply andb_true_iff in Hp as [Hm Hu]. rewrite Hm, Hu.
  apply String.eqb_eq in Hm, Hu. rewrite Hm, Hu. reflexivity.
Qed.

(** C10. A request that no route takes leaves the world as it was: no
    status or body is written, and neither the store nor the cache is
    touched. *)
Theorem unhandled_request_no_reply req w :
  handled req = false ->
  userRouter req w = (Returned tt, w) /\
  res (handle req w) = res w /\ cache (handle req w) = cache w /\
  db (handle req w) = db w /\ calls (handle req w) = calls w.
Proof.
  unfold handled, is_load, is_delete_user, is_get_user, is_list_users,
    is_put_user, is_GET. intros Hno.
  repeat (apply orb_false_iff in Hno as [Hno ?]).
  assert (userRouter req w = (Returned tt, w)) as Hrun.
  { unfold userRouter.
    destruct (String.eqb (method req) "GET") eqn:Hget; simpl in *.
    - rewrite Hno. simpl.
      replace (String.eqb (method req) "DELETE") with false; simpl.
      2:{ apply String.eqb_eq in Hget. by rewrite Hget. }
      destruct (test_user_path (url req)); [done|].
      destruct (startsWith (url req) "/users"); [done|].
      replace (String.eqb (method req) "PUT") with false; [done|].
      apply String.eqb_eq in Hget. by rewrite Hget.
    - match goal with Hd : _ && startsWith _ _ = false |- _ => rewrite Hd end.
      match goal with Hp : String.eqb _ "PUT" && _ = false |- _ => rewrite Hp end.
      done. }
  unfold handle. rewrite Hrun. done.
Qed.


Lemma invalid_sortBy_text :
  invalid_sortBy = "Invalid sortBy field. Must be one of: id, name, username, email".
Proof. reflexivity. Qed.

(** C7, as the router has it.  GET /users, when the [new URL] of line 125
    returns: an invalid page or limit is answered 400
    [Invalid page or limit value]; with a valid page and limit, a sortBy
    outside the four fields is answered 400 with the message that lists id,
    name, username, email; in both cases the store is not called. *)
Theorem list_users_validation req w :
  is_list_users req = true ->
  is_Some (searchParams req) ->
  let w' := handle req w in
  (invalid_paging req ->
     res w' = Some (reply 400 (error "Invalid page or limit value")) /\
     calls w' = calls w /\ db w' = db w) /\
  (~ invalid_paging req ->
     includes validSortFields (sortBy_of req) = false ->
     res w' = Some (reply 400 (error
       "Invalid sortBy field. Must be one of: id, name, username, email")) /\
     calls w' = calls w /\ db w' = db w).
Proof.
  intros Hroute [params Hparams] w'. subst w'. unfold handle.
  rewrite (route_list_users _ Hroute).
  unfold list_users, invalid_paging, below_one. rewrite Hparams.
  destruct (page_of req) as [page|], (limit_of req) as [limit|];
    try (split; [done | intros Hv; exfalso; apply Hv; auto]).
  destruct (Z.ltb_spec page 1), (Z.ltb_spec limit 1); simpl;
    try (split; [done | intros Hv; exfalso; apply Hv; auto]).
  split.
  - intros [?|[?|[?|?]]]; (discriminate || lia).
  - intros _ ->. done.
Qed.

Lemma assoc_obj_set_ne (k k' : string) (v : value) ps :
  k <> k' -> assoc k (obj_set k' v ps) = assoc k ps.
Proof.
  intros Hne. induction ps as [|[k0 v0] ps IH]; simpl.
  - destruct (String.eqb_spec k k'); done.
  - destruct (String.eqb_spec k' k0) as [->|]; simpl.
    + destruct (String.eqb_spec k k0); done.
    + destruct (String.eqb_spec k k0); done.
Qed.

Lemma get_prop_with_id (u : value) (oid : option value) (id : Z) :
  get_prop u "id" = VNum id -> get_prop (with_id u oid) "id" = VNum id.
Proof.
  destruct oid as [i|]; [|done].
  destruct u; try discriminate. simpl.
  by rewrite assoc_obj_set_ne.
Qed.

(** C6, as the router has it.  PUT /users: a body that [JSON.parse] rejects
    is answered 500 [Failed to add user]; a parsed value that is falsy or
    has no numeric id is answered 400 [Invalid user data]; when the store
    finds a document with the id the answer is 400 [User already exists.]
    and nothing is inserted; when the store throws, at the lookup or at the
    insert, the answer is 500 [Failed to add user] and the cache is
    unchanged; otherwise the document is inserted, the cache is the one
    before without the keys that start with ["/users"], and the answer is
    201 with the header [Location: /users/id] and the inserted document as
    body. *)
Theorem put_user_cases req w :
  is_put_user req = true ->
  let w' := handle req w in
  (parsedBody req = None ->
     res w' = Some (reply 500 (error "Failed to add user")) /\
     calls w' = calls w /\ db w' = db w /\ cache w' = cache w) /\
  (forall u,
     parsedBody req = Some u ->
     truthy u = false \/ is_number (get_prop u "id") = false ->
     res w' = Some (reply 400 (error "Invalid user data")) /\
     calls w' = calls w /\ db w' = db w /\ cache w' = cache w) /\
  (forall u id existing db',
     parsedBody req = Some u -> truthy u = true -> get_prop u "id" = VNum id ->
     findOne id (db w) = (Returned (Some existing), db') ->
     res w' = Some (reply 400 (error "User already exists.")) /\
     calls w' = (calls w ++ [CallFindOne id])%list /\ db w' = db' /\
     cache w' = cache w) /\
  (forall u id db',
     parsedBody req = Some u -> truthy u = true -> get_prop u "id" = VNum id ->
     findOne id (db w) = (Thrown, db') ->
     res w' = Some (reply 500 (error "Failed to add user")) /\
     calls w' = (calls w ++ [CallFindOne id])%list /\ db w' = db' /\
     cache w' = cache w) /\
  (forall u id db' db'',
     parsedBody req = Some u -> truthy u = true -> get_prop u "id" = VNum id ->
     findOne id (db w) = (Returned None, db') ->
     insertOne u db' = (Thrown, db'') ->
     res w' = Some (reply 500 (error "Failed to add user")) /\
     calls w' = (calls w ++ [CallFindOne id; CallInsertOne u])%list /\
     db w' = db'' /\ cache w' = cache w) /\
  (forall u id db' oid db'',
     parsedBody req = Some u -> truthy u = true -> get_prop u "id" = VNum id ->
     findOne id (db w) = (Returned None, db') ->
     insertOne u db' = (Returned oid, db'') ->
     db w' = db'' /\
     calls w' = (calls w ++ [CallFindOne id; CallInsertOne u])%list /\
     (forall k, cache w' !! k
                = if startsWith k "/users" then None else cache w !! k) /\
     res w' = Some {| status := 201;
                      headers := [("Content-Type", "application/json");
                                  ("Location", "/users/" +:+ Z_to_string id)];
                      body := JSON_stringify (with_id u oid) |}).
Proof.
  intros Hroute w'. subst w'. unfold handle.
  rewrite (route_put_user _ Hroute). unfold put_user.
  split; [|split; [|split; [|split; [|split]]]].
  - intros ->. done.
  - intros u -> [Hu|Hu]; run.
    + rewrite Hu. done.
    + destruct (truthy u); [|done].
      destruct (get_prop u "id"); done.
  - intros u id existing db' -> Hu Hid Hfind. run.
    rewrite Hu, Hid, Hfind. done.
  - intros u id db' -> Hu Hid Hfind. run.
    rewrite Hu, Hid, Hfind. done.
  - intros u id db' db'' -> Hu Hid Hfind Hins. run.
    rewrite Hu, Hid, Hfind. simpl. rewrite Hins. simpl.
    rewrite <- app_assoc. done.
  - intros u id db' oid db'' -> Hu Hid Hfind Hins.
    pose proof (get_prop_with_id u oid id Hid) as Hid'. run.
    rewrite Hu, Hid, Hfind. simpl. rewrite Hins. simpl.
    rewrite Hid'. simpl. rewrite <- app_assoc.
    split; [done|]. split; [done|]. split; [|done].
    intros k. apply lookup_invalidate.
Qed.

Arguments JSON_stringify : simpl never.

Lemma Math_ceil_div_spec (a b : Z) : 0 < b -> is_ceiling (Math_ceil_div a b) a b.
Proof.
  intros Hb. unfold is_ceiling, Math_ceil_div.
  pose proof (Z.mul_div_le (- a) b Hb).
  pose proof (Z.mul_succ_div_gt (- a) b Hb).
  lia.
Qed.

Lemma is_ceiling_unique (t t' a b : Z) :
  0 < b -> is_ceiling t a b -> is_ceiling t' a b -> t = t'.
Proof. unfold is_ceiling. intros Hb [H1 H2] [H3 H4]. nia. Qed.



Lemma page_payload_fresh (page limit totalUsers : Z) (users : list value) :
  1 <= limit ->
  page_payload page limit
    (VObj [("page", VNum page); ("limit", VNum limit);
           ("totalUsers", VNum totalUsers);
           ("totalPages", VNum (Math_ceil_div totalUsers limit));
           ("users", VArr users); ("cached", VBool false)]).
Proof.
  intros Hl. exists totalUsers, (Math_ceil_div totalUsers limit), users, false.
  split; [done|]. apply Math_ceil_div_spec. lia.
Qed.








(** No write removes what is cached under the key of a collection read:
    the three writing routes invalidate under ["/users"] only. *)
Lemma writes_keep_collection_entries req w page limit search sortBy order :
  is_load req || is_delete_user req || is_put_user req = true ->
  cache (handle req w) !! collectionKey page limit search sortBy order
  = cache w !! collectionKey page limit search sortBy order.
Proof.
  intros Hroute. unfold handle.
  apply orb_true_iff in Hroute as [Hroute|Hput];
    [apply orb_true_iff in Hroute as [Hload|Hdel]|].
  - rewrite (route_load _ Hload). run.
    destruct (ingest (db w)) as [[[]|] db']; simpl;
      auto using invalidate_users_keeps_collection.
  - rewrite (route_delete_user _ Hdel). unfold delete_user.
    destruct (parseInt _ None) as [id|]; [|done]. run.
    destruct (deleteOne id (db w)) as [[n|] db']; simpl; [|done].
    destruct (n =? 0); simpl; auto using invalidate_users_keeps_collection.
  - rewrite (route_put_user _ Hput). unfold put_user.
    destruct (parsedBody req) as [u|]; [|done]. run.
    destruct (truthy u); [|done].
    destruct (get_prop u "id") as [| | |id| | |]; try done.
    destruct (findOne id (db w)) as [[[e|]|] db']; simpl; try done.
    destruct (insertOne u db') as [[oid|] db'']; simpl; [|done].
    apply invalidate_users_keeps_collection.
Qed.

(** What C1 denies, in general: an entry cached by a collection read is
    still served, with [cached: true] and without a call on the store,
    after any write, as long as it has not expired. *)
Lemma collection_read_served_after_write (write req : Request) w
    (page limit : Z) (e : CacheEntry) :
  is_load write || is_delete_user write || is_put_user write = true ->
  is_list_users req = true ->
  is_Some (searchParams req) ->
  page_of req = Some page -> limit_of req = Some limit ->
  1 <= page -> 1 <= limit ->
  includes validSortFields (sortBy_of req) = true ->
  cache w !! collectionKey page limit (search_of req) (sortBy_of req) (order_of req)
  = Some e ->
  truthy (data e) = true ->
  let w1 := next_request (handle write w) in
  clock w1 (ticks w1) - timestamp e <= CACHE_TTL ->
  let w2 := handle req w1 in
  calls w2 = [] /\
  res w2 = Some (reply 200 (VObj (obj_set "cached" (VBool true) (spread (data e))))).
Proof.
  intros Hwrite Hroute [params Hparams] Hpage Hlimit Hp Hl Hsort He Hdata w1
    Hfresh w2.
  assert (getCache (clock w1 (ticks w1))
            (collectionKey page limit (search_of req) (sortBy_of req) (order_of req))
            (cache w1) = data e) as Hget.
  { unfold getCache. subst w1. simpl.
    rewrite (writes_keep_collection_entries _ _ _ _ _ _ _ Hwrite), He.
    destruct (Z.gtb_spec (clock (handle write w) (ticks (handle write w))
                          - timestamp e) CACHE_TTL) as [Hgt|]; [|done].
    simpl in Hfresh. lia. }
  assert (calls w1 = []) as Hcalls by done.
  clearbody w1. subst w2. unfold handle. rewrite (route_list_users _ Hroute).
  unfold list_users. rewrite Hparams, Hpage, Hlimit, Hsort.
  rewrite (proj2 (Z.ltb_ge page 1) Hp), (proj2 (Z.ltb_ge limit 1) Hl).
  unfold bind, cache_get, Date_now, bind, send, respond. simpl.
  rewrite Hget, Hdata. done.
Qed.



End RouterProperties.

(** ** Predicates on the characters of a string *)

Section StringPredicates.
Implicit Types (s t : string).

Lemma all_chars_app (P : ascii -> bool) s t :
  all_chars P (s +:+ t) = all_chars P s && all_chars P t.
Proof.
  induction s as [|c s IH]; [done|].
  rewrite append_cons. simpl. by rewrite IH, andb_assoc.
Qed.

End StringPredicates.

(** ** The path of a single-entity read *)

Section UserPath.
Implicit Types (s t u : string).

Lemma strip_prefix_Some p u t : strip_prefix p u = Some t -> u = p +:+ t.
Proof.
  revert u. induction p as [|a p IH]; intros u; simpl.
  - by intros [= ->].
  - destruct u as [|b u]; [discriminate|].
    destruct (Ascii.eqb_spec a b) as [->|]; [|discriminate].
    intros Hp. rewrite append_cons. f_equal. by apply IH.
Qed.

Lemma split_digits s : all_digits s = true -> split "/" s = [s].
Proof.
  induction s as [|c s IH]; simpl; [done|].
  intros Hs. apply andb_true_iff in Hs as [Hc Hs]. rewrite (IH Hs).
  destruct (Ascii.eqb_spec c "/") as [->|]; [discriminate|done].
Qed.

Lemma read_digits_Some radix a s : is_Some (read_digits radix (Some a) s).
Proof.
  revert a. induction s as [|c s IH]; intros a; simpl; [eauto|].
  destruct (digit_value radix c); eauto.
Qed.

Lemma digit_value_digit c : is_digit c = true -> is_Some (digit_value 10 c).
Proof.
  unfold is_digit, digit_value. intros Hc.
  apply andb_true_iff in Hc as [H1 H2].
  apply N.leb_le in H1, H2.
  destruct (Z.leb_spec 48 (Z.of_N (N_of_ascii c))); [|lia].
  destruct (Z.leb_spec (Z.of_N (N_of_ascii c)) 57); [|lia]. simpl.
  destruct (Z.ltb_spec (Z.of_N (N_of_ascii c) - 48) 10); [eauto|lia].
Qed.

Lemma parseInt_digits s :
  s <> "" -> all_digits s = true -> is_Some (parseInt s None).
Proof.
  destruct s as [|c s]; [done|]. intros _ Hs. simpl in Hs.
  apply andb_true_iff in Hs as [Hc Hs].
  assert (is_space c = false /\ c <> "-"%char /\ c <> "+"%char) as (Hsp & Hm & Hp).
  { unfold is_digit in Hc. apply andb_true_iff in Hc as [H1 H2].
    apply N.leb_le in H1, H2. repeat split.
    - unfold is_space. destruct (N.eqb_spec (N_of_ascii c) 32); [lia|].
      destruct (N.leb_spec (N_of_ascii c) 13); [lia|].
      destruct (N.eqb_spec (N_of_ascii c) 160); [lia|].
      by rewrite andb_false_r.
    - intros ->. vm_compute in H1. done.
    - intros ->. vm_compute in H1. done. }
  assert (strip_sign (String c s) = (1, String c s)) as Hsign.
  { unfold strip_sign. destruct c as [[|] [|] [|] [|] [|] [|] [|] [|]]; done. }
  assert (strip_0x (String c s) = None) as H0x.
  { destruct s as [|d s]; simpl.
    - destruct c as [[|] [|] [|] [|] [|] [|] [|] [|]]; done.
    - simpl in Hs. apply andb_true_iff in Hs as [Hd _].
      destruct c as [[|] [|] [|] [|] [|] [|] [|] [|]]; try done;
        destruct d as [[|] [|] [|] [|] [|] [|] [|] [|]]; done. }
  unfold parseInt. simpl trim_start. rewrite Hsp, Hsign, H0x. simpl.
  destruct (digit_value_digit c Hc) as [d ->].
  destruct (read_digits_Some 10 (10 * 0 + d) s) as [n ->]. eauto.
Qed.

(** On a path that the pattern of line 92 accepts, [parseInt] reads a
    number: the branch of [get_user] without one is never taken. *)
Lemma parseInt_user_path u :
  test_user_path u = true -> is_Some (parseInt (segment2 u) None).
Proof.
  unfold test_user_path.
  destruct (strip_prefix "/users/" u) as [ds|] eqn:Hp; [|discriminate].
  intros Hds. apply andb_true_iff in Hds as [Hne Hds].
  apply strip_prefix_Some in Hp. subst u.
  assert (segment2 ("/users/" +:+ ds) = ds) as ->.
  { unfold segment2. rewrite !append_cons, append_nil_l.
    cbn [split Ascii.eqb Bool.eqb]. rewrite (split_digits ds Hds). reflexivity. }
  apply parseInt_digits; [|done].
  intros ->. discriminate.
Qed.

End UserPath.

(** ** Runs on the reference store *)

Module Runs.
Import MemStore Scenario.

(** C1, at the failing input.  GET /users reads the store and caches the
    page; PUT /users then inserts [bob] and invalidates under ["/users"];
    the next GET /users, one second after the page was cached, is answered
    from the cache with the page from before the write, without a call on
    the store. *)
Theorem stale_collection_page_after_put :
  let w1 := handle (request "GET" "/users" [] None) world1 in
  let w2 := handle (request "PUT" "/users" [] (Some bob)) (next_request w1) in
  let w3 := handle (request "GET" "/users" [] None) (next_request w2) in
  status <$> res w2 = Some 201 /\
  length (docs (db w2)) = 2%nat /\
  calls w3 = [] /\
  res w3 = Some (reply 200
    (VObj [("page", VNum 1); ("limit", VNum 5); ("totalUsers", VNum 1);
           ("totalPages", VNum 1); ("users", VArr [alice]);
           ("cached", VBool true)])).
Proof. vm_compute. repeat split. Qed.

(** C5, at the failing input.  GET /users reads the store and caches the
    page with [totalUsers] 1; DELETE /users/1 then deletes [alice] and
    invalidates under ["/users"], which leaves the page in the cache; the
    next GET /users is answered from the cache with [totalUsers] 1 and
    [totalPages] 1, without a call on the store, while the count of the
    documents under the same filter is 0. *)
Theorem stale_total_after_delete :
  let w1 := handle (request "GET" "/users" [] None) world1 in
  let w2 := handle (request "DELETE" "/users/1" [] None) (next_request w1) in
  let w3 := handle (request "GET" "/users" [] None) (next_request w2) in
  status <$> res w2 = Some 200 /\
  docs (db w2) = [] /\
  calls w3 = [] /\
  res w3 = Some (reply 200
    (VObj [("page", VNum 1); ("limit", VNum 5); ("totalUsers", VNum 1);
           ("totalPages", VNum 1); ("users", VArr [alice]);
           ("cached", VBool true)])) /\
  fst (countDocuments (search_query "") (db w3)) = Returned 0.
Proof. vm_compute. repeat split. Qed.

(** C6 fails as stated: a PUT /users whose body is not JSON is answered
    500 [Failed to add user], not 400 [Invalid user data]. *)
Lemma put_unparsable_body_500 :
  let w' := handle (request "PUT" "/users" [] None) world1 in
  res w' = Some (reply 500 (error "Failed to add user")) /\
  res w' <> Some (reply 400 (error "Invalid user data")).
Proof. vm_compute. split; [reflexivity | discriminate]. Qed.

(** [put_user_cases] on the reference store: [alice] is there already. *)
Lemma put_user_cases_witness :
  res (handle (request "PUT" "/users" [] (Some alice)) world1)
  = Some (reply 400 (error "User already exists.")).
Proof.
  apply (proj1 (proj2 (proj2 (put_user_cases
    (request "PUT" "/users" [] (Some alice)) world1 eq_refl)))
    alice 1 alice store1); reflexivity.
Defined.

(** C7 fails as stated: with page 0 and a sortBy outside the four fields,
    the answer is the one for the page, which lists no field; and a page
    that only starts with digits, [1abc], is read as 1 and answered 200. *)
Lemma invalid_page_and_sortBy :
  let w' := handle (request "GET" "/users" [("page", "0"); ("sortBy", "foo")] None)
              world1 in
  let w'' := handle (request "GET" "/users" [("page", "1abc")] None) world1 in
  res w' = Some (reply 400 (error "Invalid page or limit value")) /\
  res w' <> Some (reply 400 (error
    "Invalid sortBy field. Must be one of: id, name, username, email")) /\
  status <$> res w'' = Some 200.
Proof. vm_compute. split; [reflexivity | split; [discriminate | reflexivity]]. Qed.

(** [list_users_validation] on the reference store: sortBy [foo]. *)
Lemma list_users_validation_witness :
  res (handle (request "GET" "/users" [("sortBy", "foo")] None) world1)
  = Some (reply 400 (error
      "Invalid sortBy field. Must be one of: id, name, username, email")).
Proof.
  apply (proj2 (list_users_validation
    (request "GET" "/users" [("sortBy", "foo")] None) world1 eq_refl
    (mk_is_Some _ _ eq_refl))).
  - intros [Hp|[Hl|[Hp|Hl]]]; vm_compute in Hp || vm_compute in Hl; discriminate.
  - reflexivity.
Defined.

(** C8, at the failing input.  For the search [B.] the store is asked, for
    the page and for the count, with the filter whose patterns are the
    lower-cased search [b.] as it is, the dot not escaped; the reference
    store, which reads the dot as any character, answers with [bob], and
    [b.] does not occur in a field of [bob]. *)
Theorem search_pattern_not_escaped :
  let req := request "GET" "/users" [("search", "B.")] None in
  let q := QOr [Regex "name" "b." "i"; Regex "username" "b." "i";
                Regex "email" "b." "i"] in
  let w' := handle req world_both in
  search_of req = "b." /\
  calls w' = [CallFind q "id" 1 0 5; CallCountDocuments q] /\
  res w' = Some (reply 200
    (VObj [("page", VNum 1); ("limit", VNum 5); ("totalUsers", VNum 1);
           ("totalPages", VNum 1); ("users", VArr [bob]);
           ("cached", VBool false)])) /\
  ~ (exists field s, In field ["name"; "username"; "email"] /\
       In s (field_strings bob field) /\ contains_ci "b." s).
Proof.
  intros req q w'. split; [reflexivity|]. split; [reflexivity|].
  split; [reflexivity|].
  intros (field & s & Hf & Hs & l & r & Hc).
  assert (s = "bob") as ->.
  { simpl in Hf. destruct Hf as [<-|[<-|[<-|[]]]]; simpl in Hs; intuition. }
  set (P := fun c => negb (Ascii.eqb c ".")).
  apply (f_equal (all_chars P)) in Hc. rewrite !all_chars_app in Hc.
  change (all_chars P (toLowerCase "bob")) with true in Hc.
  change (all_chars P (toLowerCase "b.")) with false in Hc.
  rewrite andb_false_l, andb_false_r in Hc. discriminate.
Qed.



(** [unhandled_request_no_reply] for POST /users. *)
Lemma unhandled_request_witness :
  res (handle (request "POST" "/users" [] None) world1) = None.
Proof.
  apply (proj1 (proj2 (unhandled_request_no_reply
    (request "POST" "/users" [] None) world1 eq_refl))).
Defined.

End Runs.

(** * Further properties of the routes *)

Section RouteExtras.
Context {DB : Type} `{Store DB}.
Implicit Types (req : Request) (w : World DB).

Ltac exec :=
  unfold handle, userRouter, load, delete_user, get_user, list_users, put_user,
    send, respond, cache_get, cache_set, cache_invalidate, Date_now, call,
    try_catch, bind, ret, throw, set_cache in *;
  simpl in *.

Arguments JSON_stringify : simpl never.

(** A lookup that is served: the entry is there, has not expired, and its
    data is truthy. *)
Lemma getCache_fresh now key (c : gmap string CacheEntry) e :
  c !! key = Some e -> now - timestamp e <= CACHE_TTL ->
  getCache now key c = data e.
Proof.
  intros He Hnow. unfold getCache. rewrite He.
  destruct (Z.gtb_spec (now - timestamp e) CACHE_TTL); [lia|done].
Qed.

Lemma getCache_expired now key (c : gmap string CacheEntry) e :
  c !! key = Some e -> now - timestamp e > CACHE_TTL ->
  getCache now key c = VNull.
Proof.
  intros He Hnow. unfold getCache. rewrite He.
  destruct (Z.gtb_spec (now - timestamp e) CACHE_TTL); [done|lia].
Qed.

(** GET /users/:userId on a miss, case by case. *)
Lemma get_user_on_miss req w (id : Z) :
  is_get_user req = true ->
  parseInt (segment2 (url req)) None = Some id ->
  truthy (getCache (clock w (ticks w)) (userKey id) (cache w)) = false ->
  let w' := handle req w in
  calls w' = (calls w ++ [CallFindOne id])%list /\
  (forall user db',
     findOne id (db w) = (Returned (Some user), db') ->
     res w' = Some (reply 200 (VObj [("user", user); ("cached", VBool false)])) /\
     cache w'
     = setCache (clock w (S (ticks w))) (userKey id)
         (VObj [("user", user); ("cached", VBool false)]) (cache w) /\
     db w' = db') /\
  (forall db',
     findOne id (db w) = (Returned None, db') ->
     res w' = Some (reply 404 (error "User not found")) /\
     cache w' = cache w /\ db w' = db') /\
  (forall db',
     findOne id (db w) = (Thrown, db') ->
     res w' = Some (reply 500 (error "Failed to fetch user")) /\
     cache w' = cache w /\ db w' = db').
Proof.
  intros Hroute Hid Hmiss w'. subst w'. unfold handle.
  rewrite (route_get_user _ Hroute). unfold get_user. rewrite Hid. exec.
  rewrite Hmiss. simpl.
  destruct (findOne id (db w)) as [[[user|]|] db1]; simpl;
    (split; [done|]);
    (split; [intros ? ? [= <- <-] || intros ? ? [=]; done|]);
    (split; [intros ? [= <-] || intros ? [=]; done|]);
    (intros ? [= <-] || intros ? [=]); done.
Qed.

(** X1. GET /users/:userId on a miss (lines 103-119): the store is asked once
    for the id.  A document found is answered 200 with [cached: false] and
    is cached under ["/users/id"] with the time read when it is put (the
    tick after the one of the lookup); no document is answered 404 and a
    failure of the store 500, and in both cases nothing is cached. *)
Theorem get_user_miss req w (id : Z) :
  is_get_user req = true ->
  parseInt (segment2 (url req)) None = Some id ->
  truthy (getCache (clock w (ticks w)) (userKey id) (cache w)) = false ->
  let w' := handle req w in
  calls w' = (calls w ++ [CallFindOne id])%list /\
  (forall user db',
     findOne id (db w) = (Returned (Some user), db') ->
     res w' = Some (reply 200 (VObj [("user", user); ("cached", VBool false)])) /\
     cache w'
     = setCache (clock w (S (ticks w))) (userKey id)
         (VObj [("user", user); ("cached", VBool false)]) (cache w) /\
     db w' = db') /\
  (forall db',
     findOne id (db w) = (Returned None, db') ->
     res w' = Some (reply 404 (error "User not found")) /\
     cache w' = cache w /\ db w' = db') /\
  (forall db',
     findOne id (db w) = (Thrown, db') ->
     res w' = Some (reply 500 (error "Failed to fetch user")) /\
     cache w' = cache w /\ db w' = db').
Proof.
  intros Hroute Hid Hmiss w'. subst w'. unfold handle.
  rewrite (route_get_user _ Hroute). unfold get_user. rewrite Hid. exec.
  rewrite Hmiss. simpl.
  destruct (findOne id (db w)) as [[[user|]|] db1]; simpl;
    (split; [done|]);
    (split; [intros ? ? [= <- <-] || intros ? ? [=]; done|]);
    (split; [intros ? [= <-] || intros ? [=]; done|]);
    (intros ? [= <-] || intros ? [=]); done.
Qed.

(** An entry under ["/users/id"] that has not expired is served as it is,
    with [cached: true]; the store is not asked and nothing changes. *)
Lemma get_user_hit req w (id : Z) (e : CacheEntry) :
  is_get_user req = true ->
  parseInt (segment2 (url req)) None = Some id ->
  cache w !! userKey id = Some e ->
  truthy (data e) = true ->
  clock w (ticks w) - timestamp e <= CACHE_TTL ->
  let w' := handle req w in
  res w' = Some (reply 200 (VObj (obj_set "cached" (VBool true) (spread (data e))))) /\
  calls w' = calls w /\ cache w' = cache w /\ db w' = db w.
Proof.
  intros Hroute Hid He Hdata Hfresh w'. subst w'. unfold handle.
  rewrite (route_get_user _ Hroute). unfold get_user. rewrite Hid. exec.
  rewrite (getCache_fresh _ _ _ e He Hfresh), Hdata. done.
Qed.

(** X2. Reading a user twice (lines 92-121).  After a miss that found the
    user, a request for the same id (the same path, or another spelling of
    the number such as [/users/007]) is served from the cache, with the same
    user and [cached: true] and without a call on the store, as long as the
    clock read at the second lookup is within the TTL of the time of
    caching; once it is past the TTL, the store is asked again. *)
Theorem get_user_twice req req2 w (id : Z) (user : value) (db' : DB) :
  is_get_user req = true ->
  parseInt (segment2 (url req)) None = Some id ->
  is_get_user req2 = true ->
  parseInt (segment2 (url req2)) None = Some id ->
  truthy (getCache (clock w (ticks w)) (userKey id) (cache w)) = false ->
  findOne id (db w) = (Returned (Some user), db') ->
  let w1 := next_request (handle req w) in
  let cached_at := clock w (S (ticks w)) in
  let w2 := handle req2 w1 in
  (clock w1 (ticks w1) - cached_at <= CACHE_TTL ->
     res w2 = Some (reply 200 (VObj [("user", user); ("cached", VBool true)])) /\
     calls w2 = [] /\ db w2 = db') /\
  (clock w1 (ticks w1) - cached_at > CACHE_TTL ->
     calls w2 = [CallFindOne id]).
Proof.
  intros Hroute Hid Hroute2 Hid2 Hmiss Hfind w1 cached_at w2.
  destruct (get_user_on_miss req w id Hroute Hid Hmiss) as (_ & Hfound & _).
  destruct (Hfound user db' Hfind) as (_ & Hcache & Hdb).
  assert (cache w1 !! userKey id
          = Some {| data := VObj [("user", user); ("cached", VBool false)];
                    timestamp := cached_at |}) as He.
  { subst w1. simpl. rewrite Hcache. unfold setCache. apply lookup_insert_eq. }
  split.
  - intros Hfresh.
    destruct (get_user_hit req2 w1 id _ Hroute2 Hid2 He eq_refl Hfresh)
      as (Hres & Hcalls & _ & Hdb1).
    subst w2. rewrite Hres, Hcalls, Hdb1. subst w1. simpl. by rewrite Hdb.
  - intros Hold.
    assert (truthy (getCache (clock w1 (ticks w1)) (userKey id) (cache w1)) = false)
      as Hmiss1 by (by rewrite (getCache_expired _ _ _ _ He Hold)).
    destruct (get_user_on_miss req2 w1 id Hroute2 Hid2 Hmiss1) as (Hcalls & _).
    subst w2. by rewrite Hcalls.
Qed.

(** What a writing route does to the cache: it is invalidated under
    ["/users"] when the response reports success, and left as it is
    otherwise. *)
Lemma write_outcome req w :
  is_write req = true ->
  exists r, res (handle req w) = Some r /\
    cache (handle req w)
    = if succeeded r then invalidateCacheByPrefix "/users" (cache w) else cache w.
Proof.
  unfold is_write, handle. intros Hroute.
  apply orb_true_iff in Hroute as [Hroute|Hput];
    [apply orb_true_iff in Hroute as [Hload|Hdel]|].
  - rewrite (route_load _ Hload). exec.
    destruct (ingest (db w)) as [[[]|] db']; simpl; eauto.
  - rewrite (route_delete_user _ Hdel). unfold delete_user.
    destruct (parseInt _ None) as [id|]; [|exec; eauto]. exec.
    destruct (deleteOne id (db w)) as [[n|] db']; simpl; [|eauto].
    destruct (n =? 0); simpl; eauto.
  - rewrite (route_put_user _ Hput). unfold put_user.
    destruct (parsedBody req) as [u|]; [|exec; eauto]. exec.
    destruct (truthy u); [|eauto].
    destruct (get_prop u "id") as [| | |id| | |]; eauto.
    destruct (findOne id (db w)) as [[[e|]|] db']; simpl; eauto.
    destruct (insertOne u db') as [[oid|] db'']; simpl; eauto.
Qed.

(** X6. A write that fails never invalidates (lines 56-59, 68-72, 76-78,
    84-87, 209-221, 231-234): when the response of GET /load,
    DELETE /users/:userId or PUT /users is not a 200 or a 201, the cache
    is exactly the one from before. *)
Theorem failed_write_keeps_cache req w (r : Response) :
  is_write req = true ->
  res (handle req w) = Some r ->
  succeeded r = false ->
  cache (handle req w) = cache w.
Proof.
  intros Hroute Hres Hfail.
  destruct (write_outcome req w Hroute) as (r' & Hres' & Hcache).
  rewrite Hres in Hres'. injection Hres' as <-. by rewrite Hcache, Hfail.
Qed.

(** X7. No single-entity read is stale after a successful write (lines 52,
    80, 224 with 94-101): when GET /load, DELETE /users/:userId or
    PUT /users has answered 200 or 201, the next GET /users/:userId, of
    whatever id, finds no entry and asks the store. *)
Theorem user_read_after_write_asks_store (write req : Request) w
    (r : Response) (id : Z) :
  is_write write = true ->
  res (handle write w) = Some r ->
  succeeded r = true ->
  is_get_user req = true ->
  parseInt (segment2 (url req)) None = Some id ->
  let w1 := next_request (handle write w) in
  cache w1 !! userKey id = None /\
  calls (handle req w1) = [CallFindOne id].
Proof.
  intros Hroute Hres Hok Hget Hid w1.
  destruct (write_outcome write w Hroute) as (r' & Hres' & Hcache).
  rewrite Hres in Hres'. injection Hres' as <-. rewrite Hok in Hcache.
  assert (cache w1 !! userKey id = None) as Hnone.
  { subst w1. simpl. rewrite Hcache, lookup_invalidate.
    by rewrite userKey_under_users. }
  split; [done|].
  assert (truthy (getCache (clock w1 (ticks w1)) (userKey id) (cache w1)) = false)
    as Hmiss by (by rewrite (getCache_absent _ _ _ Hnone)).
  destruct (get_user_on_miss req w1 id Hget Hid Hmiss) as (Hcalls & _).
  rewrite Hcalls. done.
Qed.


Ltac answered :=
  split; [done|]; eexists; split; [reflexivity|]; unfold router_response;
  first [ left; split; [assumption | reflexivity]
        | right; left; eexists _, _; split; [|reflexivity]; simpl; tauto
        | right; right; split; [assumption|]; eexists _, _; reflexivity ].

(** X9. Every request that a route takes is answered, but for one case
    (the [try] blocks of lines 33-59, 74-87, 103-119, 167-194, 206-234, and
    line 125 outside them).  A GET /users whose URL [new URL] rejects
    throws out of the router with nothing written, called or cached.  In
    every other case the router returns and [res] holds a response: the
    empty 200 of GET /load, or a JSON body with its content type under one
    of the statuses 200, 400, 404 and 500, or the 201 of PUT /users with
    its content type, its [Location] and a JSON body. *)
Theorem handled_request_answered req w :
  handled req = true ->
  (is_list_users req = true -> searchParams req = None ->
     userRouter req w = (Thrown, w)) /\
  ((is_list_users req = true -> is_Some (searchParams req)) ->
     fst (userRouter req w) = Returned tt /\
     exists r, res (handle req w) = Some r /\ router_response req r).
Proof.
  intros Hroute. split.
  { intros Hlist Hnone. rewrite (route_list_users _ Hlist).
    unfold list_users. by rewrite Hnone. }
  intros Hparsed. unfold handled, handle in *.
  repeat (apply orb_true_iff in Hroute as [Hroute|Hroute]).
  - rewrite (route_load _ Hroute). exec.
    destruct (ingest (db w)) as [[[]|] db']; simpl;
      answered.
  - rewrite (route_delete_user _ Hroute). unfold delete_user.
    destruct (parseInt _ None) as [id|]; exec.
    2:{ answered. }
    destruct (deleteOne id (db w)) as [[n|] db']; simpl.
    + destruct (n =? 0); simpl;
        answered.
    + answered.
  - destruct (parseInt_user_path (url req)) as [id Hid].
    { unfold is_get_user in Hroute. by apply andb_true_iff in Hroute as [_ ?]. }
    rewrite (route_get_user _ Hroute). unfold get_user. rewrite Hid. exec.
    destruct (truthy (getCache _ _ _)); simpl.
    { answered. }
    destruct (findOne id (db w)) as [[[user|]|] db']; simpl;
      answered.
  - destruct (Hparsed Hroute) as [params Hparams].
    rewrite (route_list_users _ Hroute). unfold list_users. rewrite Hparams.
    destruct (page_of req) as [page|], (limit_of req) as [limit|]; exec;
      try answered.
    destruct ((page <? 1) || (limit <? 1)); simpl.
    { answered. }
    destruct (negb _); simpl.
    { answered. }
    destruct (truthy (getCache _ _ _)); simpl.
    { answered. }
    destruct (find _ _ _ _ _ (db w)) as [[users|] db1]; simpl.
    2:{ answered. }
    destruct (countDocuments _ db1) as [[totalUsers|] db2]; simpl;
      answered.
  - rewrite (route_put_user _ Hroute). unfold put_user.
    destruct (parsedBody req) as [u|]; exec.
    2:{ answered. }
    destruct (truthy u).
    2:{ answered. }
    destruct (get_prop u "id") as [| | |id| | |];
      try answered.
    destruct (findOne id (db w)) as [[[e|]|] db']; simpl;
      try answered.
    destruct (insertOne u db') as [[oid|] db'']; simpl;
      answered.
Qed.

(** ** Reads *)

Lemma assoc_obj_set_eq (k : string) (v : value) ps :
  assoc k (obj_set k v ps) = Some v.
Proof.
  induction ps as [|[k0 v0] ps IH]; simpl.
  - by rewrite String.eqb_refl.
  - destruct (String.eqb_spec k k0) as [->|Hne]; simpl.
    + by rewrite String.eqb_refl.
    + destruct (String.eqb_spec k k0); done.
Qed.

(** What a reading route does, by the state of the cache under its key. *)
Lemma read_outcome req w :
  is_read req = true ->
  let w' := handle req w in
  match read_key req with
  | None =>
      cache w' = cache w /\ calls w' = calls w /\
      ((exists r, res w' = Some r /\ status r = 400) \/ res w' = res w)
  | Some key =>
      let v := getCache (clock w (ticks w)) key (cache w) in
      if truthy v
      then res w' = Some (reply 200
                     (VObj (obj_set "cached" (VBool true) (spread v)))) /\
           calls w' = calls w /\ cache w' = cache w /\ db w' = db w
      else exists c cs,
             calls w' = (calls w ++ c :: cs)%list /\
             forallb is_read_call (c :: cs) = true /\
             ((exists payload,
                 res w' = Some (reply 200 payload) /\
                 get_prop payload "cached" = VBool false /\
                 cache w' = setCache (clock w (S (ticks w))) key payload (cache w))
              \/ (exists r, res w' = Some r /\ status r <> 200 /\
                    cache w' = cache w))
  end.
Proof.
  intros Hroute w'. subst w'. unfold is_read, read_key, handle in *.
  destruct (is_get_user req) eqn:Hget.
  - destruct (parseInt_user_path (url req)) as [id Hid].
    { unfold is_get_user in Hget. by apply andb_true_iff in Hget as [_ ?]. }
    rewrite (route_get_user _ Hget). unfold get_user. rewrite Hid. exec.
    destruct (truthy (getCache _ _ _)); simpl; [done|].
    exists (CallFindOne id), [].
    destruct (findOne id (db w)) as [[[user|]|] db']; simpl;
      (split; [done|]); (split; [done|]).
    + left. eexists. split; [reflexivity|]. done.
    + right. eexists. split; [reflexivity|]. done.
    + right. eexists. split; [reflexivity|]. done.
  - simpl in Hroute. rewrite Hroute, (route_list_users _ Hroute).
    unfold list_users.
    destruct (searchParams req) as [params|]; [|split; [done|]; by auto].
    destruct (page_of req) as [page|], (limit_of req) as [limit|]; exec;
      try (split; [done|]; split; [done|]; left; eexists;
           split; [reflexivity|]; done).
    destruct ((page <? 1) || (limit <? 1)); simpl.
    { split; [done|]. split; [done|]. left. eexists.
      split; [reflexivity|]. done. }
    destruct (negb _); simpl.
    { split; [done|]. split; [done|]. left. eexists.
      split; [reflexivity|]. done. }
    destruct (truthy (getCache _ _ _)); simpl; [done|].
    destruct (find _ _ _ _ _ (db w)) as [[users|] db1]; simpl.
    2:{ eexists _, []. split; [done|]. split; [done|].
        right. eexists. split; [reflexivity|]. done. }
    destruct (countDocuments _ db1) as [[totalUsers|] db2]; simpl;
      rewrite <- app_assoc; simpl;
      eexists _, [_]; (split; [done|]); (split; [done|]).
    + left. eexists. split; [reflexivity|]. done.
    + right. eexists. split; [reflexivity|]. done.
Qed.

(** X3. A read that gets to its lookup (a GET /users only when the
    [new URL] of line 125 returns) and finds a live entry under its key is
    served from the cache (lines 95-101, 159-165): the response is the
    cached payload with [cached] set to [true], the store is not called,
    and the cache and the store are as before. *)
Theorem read_served_from_cache req w (key : string) :
  is_read req = true ->
  (is_list_users req = true -> is_Some (searchParams req)) ->
  read_key req = Some key ->
  truthy (getCache (clock w (ticks w)) key (cache w)) = true ->
  let w' := handle req w in
  res w' = Some (reply 200
    (VObj (obj_set "cached" (VBool true)
             (spread (getCache (clock w (ticks w)) key (cache w)))))) /\
  calls w' = calls w /\ cache w' = cache w /\ db w' = db w.
Proof.
  intros Hroute _ Hkey Hhit. pose proof (read_outcome req w Hroute) as Hout.
  rewrite Hkey in Hout. simpl in Hout. by rewrite Hhit in Hout.
Qed.

(** X4. A reading route never writes (lines 92-196): GET /users/:userId and
    GET /users call only [findOne], [find] and [countDocuments] on the
    store; they change the cache at most under their own key, and they
    remove no entry, not even one that has expired. *)
Theorem reads_never_write req w :
  is_read req = true ->
  let w' := handle req w in
  (exists cs, calls w' = (calls w ++ cs)%list /\ forallb is_read_call cs = true) /\
  (forall k, read_key req <> Some k -> cache w' !! k = cache w !! k) /\
  (forall k, is_Some (cache w !! k) -> is_Some (cache w' !! k)).
Proof.
  intros Hroute w'. pose proof (read_outcome req w Hroute) as Hout.
  fold w' in Hout. simpl in Hout.
  destruct (read_key req) as [key|].
  - destruct (truthy _).
    + destruct Hout as (_ & Hcalls & Hcache & _). rewrite Hcalls, Hcache.
      split; [exists []; by rewrite app_nil_r|]. done.
    + destruct Hout as (c & cs & Hcalls & Hread & [(p & _ & _ & Hcache)|(r & _ & _ & Hcache)]);
        rewrite Hcache; (split; [by exists (c :: cs)|]); try done.
      unfold setCache. split.
      * intros k Hk. rewrite lookup_insert_ne; [done|]. congruence.
      * intros k Hk. destruct (decide (key = k)) as [->|Hne].
        -- rewrite lookup_insert_eq. eauto.
        -- by rewrite lookup_insert_ne.
  - destruct Hout as (Hcache & Hcalls & _). rewrite Hcalls, Hcache.
    split; [exists []; by rewrite app_nil_r|]. done.
Qed.

(** X5. The [cached] flag of a 200 tells where the payload comes from (lines
    99, 111, 163, 184): it is [true] exactly when the read made no call on
    the store.  The request starts with nothing written to [res], as every
    request does. *)
Theorem cached_flag_tells_source req w (r : Response) :
  is_read req = true ->
  res w = None ->
  res (handle req w) = Some r ->
  status r = 200 ->
  exists payload,
    r = reply 200 payload /\
    (calls (handle req w) = calls w -> get_prop payload "cached" = VBool true) /\
    (calls (handle req w) <> calls w -> get_prop payload "cached" = VBool false).
Proof.
  intros Hroute Hstart Hres Hst.
  pose proof (read_outcome req w Hroute) as Hout.
  simpl in Hout. rewrite Hres in Hout.
  destruct (read_key req) as [key|].
  - destruct (truthy _).
    + destruct Hout as ([= ->] & Hcalls & _). eexists. split; [done|].
      split; [|done]. intros _. simpl. by rewrite assoc_obj_set_eq.
    + destruct Hout as (c & cs & Hcalls & _ & [(p & [= ->] & Hflag & _)|(r' & [= <-] & Hne & _)]);
        [|done].
      exists p. split; [done|]. split; [|done].
      intros Heq. rewrite Heq in Hcalls.
      apply (f_equal length) in Hcalls. rewrite length_app in Hcalls.
      simpl in Hcalls. lia.
  - destruct Hout as (_ & _ & [(r' & [= <-] & Hr)|Hsame]); [lia|].
    congruence.
Qed.

(** ** What the cache holds *)

Lemma cache_shaped_invalidate prefix (c : gmap string CacheEntry) :
  cache_shaped c -> cache_shaped (invalidateCacheByPrefix prefix c).
Proof.
  intros Hc key e He. rewrite lookup_invalidate in He.
  destruct (startsWith key prefix); [discriminate|]. by apply Hc.
Qed.

Lemma cache_shaped_set now key d (c : gmap string CacheEntry) :
  cache_shaped c ->
  cache_shaped {[ key := {| data := d; timestamp := now |} ]} ->
  cache_shaped (setCache now key d c).
Proof.
  intros Hc Hd k e He. unfold setCache in He.
  destruct (decide (key = k)) as [->|Hne].
  - rewrite lookup_insert_eq in He. injection He as <-.
    apply (Hd k). apply lookup_singleton_eq.
  - rewrite lookup_insert_ne in He by done. by apply Hc.
Qed.

Lemma handle_preserves_cache_shaped req w :
  cache_shaped (cache w) -> cache_shaped (cache (handle req w)).
Proof.
  intros Hok. unfold handle, userRouter.
  destruct (_ && _).
  { exec. destruct (ingest (db w)) as [[[]|] db']; simpl;
      auto using cache_shaped_invalidate. }
  destruct (_ && _).
  { unfold delete_user. destruct (parseInt _ None) as [id|]; [|done].
    exec. destruct (deleteOne id (db w)) as [[n|] db']; simpl; [|done].
    destruct (n =? 0); simpl; auto using cache_shaped_invalidate. }
  destruct (_ && _).
  { unfold get_user. destruct (parseInt _ None) as [id|]; [|done].
    exec. destruct (truthy (getCache _ _ _)); simpl; [done|].
    destruct (findOne id (db w)) as [[[user|]|] db']; simpl; try done.
    apply cache_shaped_set; [done|].
    intros k e [<- <-]%lookup_singleton_Some. left. exists id.
    split; [done|]. by exists user. }
  destruct (_ && _); [|destruct (_ && _); [|done]].
  { unfold list_users. destruct (searchParams req) as [params|]; [|done].
    destruct (page_of req) as [page|]; [|done].
    destruct (limit_of req) as [limit|]; [|done].
    destruct (Z.ltb_spec page 1); [done|].
    destruct (Z.ltb_spec limit 1); [done|]. simpl orb. cbv iota.
    destruct (includes _ _); [|done]. exec.
    destruct (truthy (getCache _ _ _)); simpl; [done|].
    destruct (find _ _ _ _ _ (db w)) as [[users|] db1]; simpl; [|done].
    destruct (countDocuments _ db1) as [[totalUsers|] db2]; simpl; [|done].
    apply cache_shaped_set; [done|].
    intros k e [<- <-]%lookup_singleton_Some. right.
    exists page, limit, (search_of req), (sortBy_of req), (order_of req).
    split; [done|]. split; [|done]. by apply page_payload_fresh. }
  unfold put_user. destruct (parsedBody req) as [u|]; [|done]. exec.
  destruct (truthy u); [|done].
  destruct (get_prop u "id") as [| | |id| | |] eqn:Hid; try done.
  destruct (findOne id (db w)) as [[[e|]|] db']; simpl; try done.
  destruct (insertOne u db') as [[oid|] db'']; simpl; [|done].
  by apply cache_shaped_invalidate.
Qed.

(** X10. The shape of the cache (lines 111-112, 178-187, with 52, 80, 224): in
    every cache the process reaches from an empty one, an entry lies under
    the key of a single-entity read and holds [{ user, cached: false }], or
    it lies under the key of a collection read and holds a payload of that
    page and limit with [cached: false].  So every cached payload is an
    object, and no entry says of itself that it was cached. *)
Theorem cache_shape_invariant (history : list Request) (w0 : World DB) :
  cache w0 = ∅ -> cache_shaped (cache (serve history w0)).
Proof.
  intros Hempty.
  assert (cache_shaped (cache w0)) as Hok.
  { rewrite Hempty. intros k e He. by rewrite lookup_empty in He. }
  clear Hempty. unfold serve. revert w0 Hok.
  induction history as [|req reqs IH]; intros w0 Hok; [done|].
  simpl. apply IH. by apply handle_preserves_cache_shaped.
Qed.

Lemma setCache_keeps_key now key d (c : gmap string CacheEntry) k :
  is_Some (c !! k) -> is_Some (setCache now key d c !! k).
Proof.
  intros Hin. unfold setCache. destruct (decide (key = k)) as [->|Hne].
  - rewrite lookup_insert_eq. eauto.
  - by rewrite lookup_insert_ne.
Qed.

Lemma handle_keeps_collection_key req w page limit search sortBy order :
  is_Some (cache w !! collectionKey page limit search sortBy order) ->
  is_Some (cache (handle req w) !! collectionKey page limit search sortBy order).
Proof.
  intros Hin. unfold handle, userRouter.
  destruct (_ && _).
  { exec. destruct (ingest (db w)) as [[[]|] db']; simpl;
      by rewrite ?invalidate_users_keeps_collection. }
  destruct (_ && _).
  { unfold delete_user. destruct (parseInt _ None) as [id|]; [|done].
    exec. destruct (deleteOne id (db w)) as [[n|] db']; simpl; [|done].
    destruct (n =? 0); simpl; by rewrite ?invalidate_users_keeps_collection. }
  destruct (_ && _).
  { unfold get_user. destruct (parseInt _ None) as [id|]; [|done].
    exec. destruct (truthy (getCache _ _ _)); simpl; [done|].
    destruct (findOne id (db w)) as [[[user|]|] db']; simpl; try done.
    by apply setCache_keeps_key. }
  destruct (_ && _); [|destruct (_ && _); [|done]].
  { unfold list_users. destruct (searchParams req) as [params|]; [|done].
    destruct (page_of req) as [p|]; [|done].
    destruct (limit_of req) as [l|]; [|done]. exec.
    destruct ((p <? 1) || (l <? 1)); [done|].
    destruct (negb _); [done|]. simpl.
    destruct (truthy (getCache _ _ _)); simpl; [done|].
    destruct (find _ _ _ _ _ (db w)) as [[users|] db1]; simpl; [|done].
    destruct (countDocuments _ db1) as [[totalUsers|] db2]; simpl; [|done].
    by apply setCache_keeps_key. }
  unfold put_user. destruct (parsedBody req) as [u|]; [|done]. exec.
  destruct (truthy u); [|done].
  destruct (get_prop u "id") as [| | |id| | |] eqn:Hid; try done.
  destruct (findOne id (db w)) as [[[e|]|] db']; simpl; try done.
  destruct (insertOne u db') as [[oid|] db'']; simpl; [|done].
  by rewrite invalidate_users_keeps_collection.
Qed.

(** X11. Nothing removes the entry of a collection read (lines 21-25 with 52,
    80, 224; lines 15-19): once a key of a collection read is in the cache,
    it is there after every further sequence of requests; an expired entry
    is only ever replaced, by a read of the same key. *)
Theorem collection_entry_never_removed (reqs : list Request) w
    page limit search sortBy order :
  is_Some (cache w !! collectionKey page limit search sortBy order) ->
  is_Some (cache (serve reqs w) !! collectionKey page limit search sortBy order).
Proof.
  unfold serve. revert w. induction reqs as [|req reqs IH]; intros w Hin; [done|].
  simpl. apply IH. by apply handle_keeps_collection_key.
Qed.

End RouteExtras.

(** ** A collection read when the store fails *)

Section CollectionFailure.
Context {DB : Type} `{Store DB}.
Implicit Types (req : Request) (w : World DB).

Arguments JSON_stringify : simpl never.

(** X23. GET /users when the store fails (lines 167-194), for a request
    whose URL the [new URL] of line 125 has parsed: on a miss with valid
    parameters, a [find] that throws is answered 500
    [Failed to fetch users] without a [countDocuments]; a [countDocuments]
    that throws after the page was found is answered the same; in both
    cases nothing is cached. *)
Theorem list_users_store_failure req w (page limit : Z) :
  is_list_users req = true ->
  is_Some (searchParams req) ->
  page_of req = Some page -> limit_of req = Some limit ->
  1 <= page -> 1 <= limit ->
  includes validSortFields (sortBy_of req) = true ->
  truthy (getCache (clock w (ticks w))
            (collectionKey page limit (search_of req) (sortBy_of req)
               (order_of req)) (cache w)) = false ->
  let w' := handle req w in
  let q := search_query (search_of req) in
  let pageQuery :=
    CallFind q (sortBy_of req) (order_of req) ((page - 1) * limit) limit in
  (forall db1,
     find q (sortBy_of req) (order_of req) ((page - 1) * limit) limit (db w)
     = (Thrown, db1) ->
     res w' = Some (reply 500 (error "Failed to fetch users")) /\
     calls w' = (calls w ++ [pageQuery])%list /\
     cache w' = cache w /\ db w' = db1) /\
  (forall users db1 db2,
     find q (sortBy_of req) (order_of req) ((page - 1) * limit) limit (db w)
     = (Returned users, db1) ->
     countDocuments q db1 = (Thrown, db2) ->
     res w' = Some (reply 500 (error "Failed to fetch users")) /\
     calls w' = (calls w ++ [pageQuery; CallCountDocuments q])%list /\
     cache w' = cache w /\ db w' = db2).
Proof.
  intros Hroute [params Hparams] Hp Hl Hpage Hlimit Hsort Hmiss w' q pageQuery.
  subst w' q pageQuery. unfold handle.
  rewrite (route_list_users _ Hroute). unfold list_users.
  rewrite Hparams, Hp, Hl.
  destruct (Z.ltb_spec page 1); [lia|]. destruct (Z.ltb_spec limit 1); [lia|].
  rewrite Hsort.
  unfold send, respond, cache_get, cache_set, Date_now, call, try_catch, bind,
    set_cache. simpl. rewrite Hmiss. simpl. split.
  - intros db1 ->. done.
  - intros users db1 db2 ->. simpl. intros ->. simpl.
    by rewrite <- app_assoc.
Qed.

End CollectionFailure.

(** * Paths, keys and [parseInt] *)

Section PathRoundTrip.
Implicit Types (s t : string) (n : Z).

Lemma split_number s : all_chars num_char s = true -> split "/" s = [s].
Proof.
  induction s as [|c s IH]; simpl; [done|].
  intros Hs. apply andb_true_iff in Hs as [Hc Hs]. rewrite (IH Hs).
  destruct (Ascii.eqb_spec c "/") as [->|]; [discriminate|done].
Qed.

Lemma segment2_userKey n : segment2 (userKey n) = Z_to_string n.
Proof.
  unfold segment2, userKey. rewrite !append_cons, append_nil_l.
  cbn [split Ascii.eqb Bool.eqb].
  by rewrite (split_number _ (Z_to_string_chars n)).
Qed.

Lemma string_of_uint_all_digits (d : Decimal.uint) :
  all_digits (NilEmpty.string_of_uint d) = true.
Proof. induction d; simpl; auto. Qed.

Lemma string_of_uint_nonempty (d : Decimal.uint) :
  d <> Decimal.Nil -> NilEmpty.string_of_uint d <> "".
Proof. destruct d; simpl; congruence. Qed.

(** A string of digits has no white space, sign or [0x] for [parseInt] to
    strip. *)
Lemma digits_plain s :
  all_digits s = true ->
  trim_start s = s /\ strip_sign s = (1, s) /\ strip_0x s = None.
Proof.
  destruct s as [|c s]; [done|]. intros Hs. simpl in Hs.
  apply andb_true_iff in Hs as [Hc Hs].
  split; [|split].
  - unfold is_digit in Hc. apply andb_true_iff in Hc as [H1 H2].
    apply N.leb_le in H1, H2. simpl.
    unfold is_space. destruct (N.eqb_spec (N_of_ascii c) 32); [lia|].
    destruct (N.leb_spec (N_of_ascii c) 13); [lia|].
    destruct (N.eqb_spec (N_of_ascii c) 160); [lia|].
    by rewrite andb_false_r.
  - unfold strip_sign.
    destruct c as [[|] [|] [|] [|] [|] [|] [|] [|]]; done.
  - destruct s as [|d s]; simpl.
    + destruct c as [[|] [|] [|] [|] [|] [|] [|] [|]]; done.
    + simpl in Hs. apply andb_true_iff in Hs as [Hd _].
      destruct c as [[|] [|] [|] [|] [|] [|] [|] [|]]; try done;
        destruct d as [[|] [|] [|] [|] [|] [|] [|] [|]]; done.
Qed.

Lemma parseInt_all_digits s :
  all_digits s = true -> parseInt s None = read_digits 10 None s.
Proof.
  intros Hs. destruct (digits_plain s Hs) as (Htrim & Hsign & H0x).
  unfold parseInt. rewrite Htrim, Hsign, H0x. simpl.
  destruct (read_digits 10 None s) as [m|]; [|done]. simpl. by destruct m.
Qed.

Lemma parseInt_minus_digits s :
  all_digits s = true ->
  parseInt (String "-" s) None = Z.mul (-1) <$> read_digits 10 None s.
Proof.
  intros Hs. destruct (digits_plain s Hs) as (_ & _ & H0x).
  unfold parseInt.
  change (trim_start (String "-" s)) with (String "-" s).
  change (strip_sign (String "-" s)) with (-1, s).
  cbv beta iota zeta. by rewrite H0x.
Qed.

Lemma read_digits_acc (d : Decimal.uint) (p : positive) :
  read_digits 10 (Some (Z.pos p)) (NilEmpty.string_of_uint d)
  = Some (Z.pos (Pos.of_uint_acc d p)).
Proof.
  revert p. induction d as [|d IH|d IH|d IH|d IH|d IH|d IH|d IH|d IH|d IH|d IH];
    intros p; [done|..];
    cbn [NilEmpty.string_of_uint read_digits Pos.of_uint_acc];
    change (digit_value 10 _) with (Some 0) ||
    change (digit_value 10 _) with (Some 1) ||
    change (digit_value 10 _) with (Some 2) ||
    change (digit_value 10 _) with (Some 3) ||
    change (digit_value 10 _) with (Some 4) ||
    change (digit_value 10 _) with (Some 5) ||
    change (digit_value 10 _) with (Some 6) ||
    change (digit_value 10 _) with (Some 7) ||
    change (digit_value 10 _) with (Some 8) ||
    change (digit_value 10 _) with (Some 9);
    cbn [default]; rewrite <- IH; f_equal; f_equal; unfold id; lia.
Qed.

Lemma read_digits_zero (d : Decimal.uint) :
  read_digits 10 (Some 0) (NilEmpty.string_of_uint d)
  = Some (Z.of_N (Pos.of_uint d)).
Proof.
  induction d as [|d IH|d IH|d IH|d IH|d IH|d IH|d IH|d IH|d IH|d IH];
    [done| exact IH |..];
    cbn [NilEmpty.string_of_uint read_digits Pos.of_uint];
    exact (read_digits_acc d _).
Qed.

Lemma read_digits_uint (d : Decimal.uint) :
  d <> Decimal.Nil ->
  read_digits 10 None (NilEmpty.string_of_uint d) = Some (Z.of_N (Pos.of_uint d)).
Proof.
  intros Hd. rewrite <- read_digits_zero. by destruct d.
Qed.

Lemma read_digits_pos (p : positive) :
  read_digits 10 None (NilEmpty.string_of_uint (Pos.to_uint p)) = Some (Z.pos p).
Proof.
  rewrite read_digits_uint by apply DecimalPos.Unsigned.to_uint_nonnil.
  by rewrite DecimalPos.Unsigned.of_to.
Qed.

Lemma Z_to_string_pos (p : positive) :
  Z_to_string (Z.pos p) = NilEmpty.string_of_uint (Pos.to_uint p).
Proof.
  unfold Z_to_string. simpl.
  pose proof (DecimalPos.Unsigned.to_uint_nonnil p). by destruct (Pos.to_uint p).
Qed.

Lemma Z_to_string_neg (p : positive) :
  Z_to_string (Z.neg p) = String "-" (NilEmpty.string_of_uint (Pos.to_uint p)).
Proof.
  unfold Z_to_string. simpl.
  pose proof (DecimalPos.Unsigned.to_uint_nonnil p). by destruct (Pos.to_uint p).
Qed.

Lemma parseInt_Z_to_string n : parseInt (Z_to_string n) None = Some n.
Proof.
  destruct n as [|p|p].
  - reflexivity.
  - rewrite Z_to_string_pos, parseInt_all_digits
      by apply string_of_uint_all_digits.
    apply read_digits_pos.
  - rewrite Z_to_string_neg, parseInt_minus_digits
      by apply string_of_uint_all_digits.
    by rewrite read_digits_pos.
Qed.

Lemma test_user_path_userKey n : test_user_path (userKey n) = true <-> 0 <= n.
Proof.
  unfold test_user_path, userKey. rewrite !append_cons, append_nil_l.
  cbn [strip_prefix Ascii.eqb Bool.eqb].
  destruct n as [|p|p].
  - by split; [lia|].
  - rewrite Z_to_string_pos, string_of_uint_all_digits.
    pose proof (string_of_uint_nonempty (Pos.to_uint p)
      (DecimalPos.Unsigned.to_uint_nonnil p)) as Hne.
    destruct (NilEmpty.string_of_uint (Pos.to_uint p)); [done|].
    by split; [lia|].
  - rewrite Z_to_string_neg. split; [intros [=]|lia].
Qed.

Lemma parseInt_userKey n : parseInt (segment2 (userKey n)) None = Some n.
Proof. by rewrite segment2_userKey, parseInt_Z_to_string. Qed.

(** X12. The path [/users/${id}] (the [Location] of line 228, the cache key
    of line 94) read as a request path, for an [id] that is a safe integer
    (the template prints other numbers otherwise, in exponent notation from
    1e21 on): [parseInt] reads [id] back from its third segment, and the
    pattern of line 92 accepts the path exactly when [id] is not
    negative. *)
Theorem user_path_round_trip n :
  safe_integer n ->
  parseInt (segment2 (userKey n)) None = Some n /\
  (test_user_path (userKey n) = true <-> 0 <= n).
Proof.
  intros _. split; [apply parseInt_userKey | apply test_user_path_userKey].
Qed.

End PathRoundTrip.

(** * Further properties of the cache store *)

Section CacheLaws.
Implicit Types (c : gmap string CacheEntry) (k key p q : string).

Lemma startsWith_empty k : startsWith k "" = true.
Proof. unfold startsWith. by destruct k. Qed.

Lemma startsWith_trans k p q :
  startsWith q p = true -> startsWith k q = true -> startsWith k p = true.
Proof.
  unfold startsWith. revert q k.
  induction p as [|a p IH]; intros q k; [by destruct k|].
  destruct q as [|b q]; [done|]. destruct k as [|d k]; [done|]. simpl.
  destruct (ascii_dec a b) as [->|]; [|done].
  destruct (ascii_dec b d) as [->|]; [|done].
  apply IH.
Qed.

(** X14. Invalidating with the empty prefix empties the cache (lines 21-25):
    every key starts with the empty string. *)
Theorem invalidate_empty_prefix c : invalidateCacheByPrefix "" c = ∅.
Proof.
  apply map_eq. intros k.
  by rewrite lookup_invalidate, startsWith_empty, lookup_empty.
Qed.

(** X15. Two invalidations (lines 21-25) can be done in either order, and
    invalidating a prefix [p] makes the invalidation of any longer prefix
    [q] (one that starts with [p]) redundant, before or after. *)
Theorem invalidate_compose c p q :
  invalidateCacheByPrefix p (invalidateCacheByPrefix q c)
  = invalidateCacheByPrefix q (invalidateCacheByPrefix p c) /\
  (startsWith q p = true ->
   invalidateCacheByPrefix p (invalidateCacheByPrefix q c)
   = invalidateCacheByPrefix p c).
Proof.
  split.
  - apply map_eq. intros k. rewrite !lookup_invalidate.
    by destruct (startsWith k p), (startsWith k q).
  - intros Hqp. apply map_eq. intros k. rewrite !lookup_invalidate.
    destruct (startsWith k p) eqn:Hp; [done|].
    destruct (startsWith k q) eqn:Hq; [|done].
    by rewrite (startsWith_trans k p q Hqp Hq) in Hp.
Qed.

(** X16. How puts compose (lines 11-13 with 15-25).  A second put under the same
    key replaces the entry, so the TTL counts from the later put; puts under
    different keys can be done in either order; and an invalidation after a
    put removes the new entry when its key starts with the prefix, and
    otherwise acts on the rest of the cache only. *)
Theorem setCache_compose c k k' (v v' : value) (t t' : Z) p :
  setCache t' k v' (setCache t k v c) = setCache t' k v' c /\
  (k <> k' ->
   setCache t' k' v' (setCache t k v c) = setCache t k v (setCache t' k' v' c)) /\
  invalidateCacheByPrefix p (setCache t k v c)
  = (if startsWith k p then invalidateCacheByPrefix p c
     else setCache t k v (invalidateCacheByPrefix p c)).
Proof.
  unfold setCache. split; [|split].
  - apply insert_insert_eq.
  - intros Hne. by apply insert_insert_ne.
  - apply map_eq. intros j. rewrite lookup_invalidate.
    destruct (startsWith k p) eqn:Hk.
    + rewrite lookup_invalidate.
      destruct (startsWith j p) eqn:Hj; [done|].
      rewrite lookup_insert_ne; [done|]. intros ->. congruence.
    + destruct (decide (k = j)) as [->|Hne].
      * by rewrite Hk, !lookup_insert_eq.
      * by rewrite !lookup_insert_ne, lookup_invalidate.
Qed.

End CacheLaws.

(** * Creating a user and following its [Location] *)

Section CreatedUser.
Context {DB : Type} `{Store DB}.
Implicit Types (req : Request) (w : World DB).

Arguments JSON_stringify : simpl never.

(** X13. The [Location] of a created user whose id is a safe integer
    (lines 223-229 with 92-104 and 124).  A PUT /users that inserts a user
    with such an [id] is answered 201 with [Location: /users/id].  A GET of
    that location, as the next request, is a single-entity read that asks
    the store for [id] when [id] is not negative; for a negative [id] the
    pattern of line 92 does not accept the location, and the GET is a
    collection read.  (An id that is not an integer is outside the
    embedding: line 209 accepts it, and line 92 does not accept its
    location either.) *)
Theorem created_user_location (put : Request) w (u : value) (id : Z)
    (oid : option value) (db1 db2 : DB) :
  is_put_user put = true ->
  parsedBody put = Some u -> truthy u = true -> get_prop u "id" = VNum id ->
  safe_integer id ->
  findOne id (db w) = (Returned None, db1) ->
  insertOne u db1 = (Returned oid, db2) ->
  let w1 := next_request (handle put w) in
  (exists r, res (handle put w) = Some r /\ status r = 201 /\
             assoc "Location" (headers r) = Some (userKey id)) /\
  (forall get,
     method get = "GET" -> url get = userKey id ->
     (0 <= id ->
      is_get_user get = true /\ calls (handle get w1) = [CallFindOne id]) /\
     (id < 0 -> is_list_users get = true)).
Proof.
  intros Hroute Hbody Hu Hid _ Hfind Hins w1.
  assert (res (handle put w)
          = Some {| status := 201;
                    headers := (json_headers ++ [("Location", userKey id)])%list;
                    body := JSON_stringify (with_id u oid) |} /\
          cache (handle put w) = invalidateCacheByPrefix "/users" (cache w))
    as [Hres Hcache].
  { pose proof (get_prop_with_id u oid id Hid) as Hid'.
    unfold handle. rewrite (route_put_user _ Hroute). unfold put_user.
    rewrite Hbody.
    unfold send, respond, cache_invalidate, call, try_catch, bind, set_cache.
    rewrite Hu, Hid. simpl. rewrite Hfind. simpl. rewrite Hins. simpl.
    by rewrite Hid'. }
  split.
  { eexists. split; [exact Hres|]. done. }
  intros get Hm Hurl.
  assert (is_GET get = true) as Hget by (unfold is_GET; by rewrite Hm).
  split.
  - intros Hpos.
    assert (is_get_user get = true) as Hg.
    { unfold is_get_user. rewrite Hget, Hurl. by apply test_user_path_userKey. }
    split; [done|].
    assert (parseInt (segment2 (url get)) None = Some id) as Hparse
      by (rewrite Hurl; apply parseInt_userKey).
    assert (truthy (getCache (clock w1 (ticks w1)) (userKey id) (cache w1)) = false)
      as Hmiss.
    { rewrite getCache_absent; [done|]. subst w1. simpl.
      by rewrite Hcache, lookup_invalidate, userKey_under_users. }
    by destruct (get_user_on_miss get w1 id Hg Hparse Hmiss) as (-> & _).
  - intros Hneg. unfold is_list_users. rewrite Hget, Hurl, userKey_under_users.
    simpl. apply negb_true_iff.
    destruct (test_user_path (userKey id)) eqn:Ht; [|done].
    apply test_user_path_userKey in Ht. lia.
Qed.

End CreatedUser.

(** * Numbers read leniently *)

Section NumberPrefix.
Implicit Types (s t ds : string) (n : Z) (c : ascii).


Lemma is_digit_digit_value c : is_digit c = true -> is_Some (digit_value 10 c).
Proof.
  destruct c as [[|] [|] [|] [|] [|] [|] [|] [|]]; vm_compute;
    intros Hc; first [discriminate Hc | eauto].
Qed.













Context {DB : Type} `{Store DB}.



End NumberPrefix.

(** * The ingestion of GET /load *)

Section IngestionProperties.
Context {Net DB : Type} `{Remote Net} `{Collation} `{Store DB}.
Implicit Types (n : Net) (d : DB) (users before after : list (list (string * value))).
Implicit Types (docs : list value) (posts : list Post.t).

#[local] Existing Instance remote_store.

Arguments JSON_stringify : simpl never.

(** As far as the store goes, the loop is the inserts of the documents. *)
Lemma ingest_users_inserts users n d docs n' :
  documents users n = (Returned docs, n') ->
  match insert_all docs d with
  | (Returned _, d') => ingest_users users (n, d) = (Returned tt, (n', d'))
  | (Thrown, d') => exists n'', ingest_users users (n, d) = (Thrown, (n'', d'))
  end.
Proof.
  revert n d docs. induction users as [|user users IH]; intros n d docs; simpl.
  - by intros [= <- <-].
  - unfold ingest_user. simpl.
    destruct (user_document user n) as [[doc|] n1]; [|discriminate].
    destruct (documents users n1) as [[docs'|] n2] eqn:Hdocs; [|discriminate].
    intros [= <- <-]. simpl.
    destruct (insertOne doc d) as [[oid|] d1]; [|eauto].
    by apply IH.
Qed.

Lemma ingest_users_app before after (s s1 : Net * DB) :
  ingest_users before s = (Returned tt, s1) ->
  ingest_users (before ++ after)%list s = ingest_users after s1.
Proof.
  revert s. induction before as [|user before IH]; intros s; simpl.
  - by intros [= <-].
  - destruct (ingest_user user s) as [[[]|] s']; [|discriminate]. apply IH.
Qed.

Lemma load_with_ingest (w : World (Net * DB)) :
  handle {| method := "GET"; url := "/load"; searchParams := None;
            parsedBody := None |} w
  = match ingest_loop (db w) with
    | (Returned _, s) =>
        {| cache := invalidateCacheByPrefix "/users" (cache w); db := s;
           clock := clock w; ticks := ticks w;
           calls := calls w ++ [CallIngest];
           res := Some {| status := 200; headers := []; body := "" |} |}
    | (Thrown, s) =>
        {| cache := cache w; db := s; clock := clock w; ticks := ticks w;
           calls := calls w ++ [CallIngest];
           res := Some (reply 500 (error "Failed to load data")) |}
    end.
Proof.
  unfold handle, userRouter, load, send, respond, cache_invalidate, call,
    try_catch, bind, set_cache. simpl.
  by destruct (ingest_loop (db w)) as [[[]|] s].
Qed.

Lemma handle_load req (w : World (Net * DB)) :
  is_load req = true ->
  handle req w
  = handle {| method := "GET"; url := "/load"; searchParams := None;
              parsedBody := None |} w.
Proof.
  intros Hroute. unfold handle. by rewrite (route_load _ Hroute).
Qed.


(** X18. GET /load is not atomic (lines 37-50 with 56-59): when the fetches for
    a user fail after the users before it have been inserted, the response
    is 500 [Failed to load data], the cache is not invalidated, and the
    store is the one with the documents of the earlier users. *)
Theorem load_failure_keeps_inserted req (w : World (Net * DB))
    before user after inserted n1 n2 n3 d1 :
  is_load req = true ->
  fetch_users users_url (fst (db w)) = (Returned (before ++ user :: after)%list, n1) ->
  documents before n1 = (Returned inserted, n2) ->
  insert_all inserted (snd (db w)) = (Returned tt, d1) ->
  user_document user n2 = (Thrown, n3) ->
  let w' := handle req w in
  res w' = Some (reply 500 (error "Failed to load data")) /\
  cache w' = cache w /\ db w' = (n3, d1).
Proof.
  intros Hroute Husers Hdocs Hins Hfail w'. subst w'.
  rewrite (handle_load _ _ Hroute), load_with_ingest.
  unfold ingest_loop. rewrite Husers.
  pose proof (ingest_users_inserts before n1 (snd (db w)) inserted n2 Hdocs) as Hin.
  rewrite Hins in Hin.
  rewrite (ingest_users_app _ _ _ _ Hin). simpl.
  unfold ingest_user. simpl. by rewrite Hfail.
Qed.

(** *** The posts of a document *)

Lemma fetch_all_comments_fetched posts n posts' n' :
  fetch_all_comments posts n = (Returned posts', n') ->
  comments_fetched n posts posts' n'.
Proof.
  revert n posts' n'.
  induction posts as [|post posts IH]; intros n posts' n'; simpl.
  - intros [= <- <-]. constructor.
  - destruct (fetch_comments _ n) as [[cs|] n1] eqn:Hcs; [|discriminate].
    destruct (fetch_all_comments posts n1) as [[rest|] n2] eqn:Hrest;
      [|discriminate].
    intros [= <- <-]. econstructor; [exact Hcs|]. by apply IH.
Qed.

Lemma insert_post_perm post posts : insert_post post posts ≡ₚ post :: posts.
Proof.
  induction posts as [|a posts IH]; simpl; [done|].
  destruct (_ <=? 0); [|done]. rewrite IH. apply Permutation_swap.
Qed.

Lemma sort_posts_perm posts : sort_posts posts ≡ₚ posts.
Proof.
  unfold sort_posts.
  assert (forall acc, fold_left (fun sorted post => insert_post post sorted)
                        posts acc ≡ₚ (acc ++ posts)%list) as Hgen.
  { induction posts as [|post posts IH]; intros acc; simpl.
    - by rewrite app_nil_r.
    - rewrite IH, insert_post_perm. simpl. apply Permutation_middle. }
  apply Hgen.
Qed.

Section Sorted.
Hypothesis total : forall a b, 0 < localeCompare a b -> localeCompare b a <= 0.
Hypothesis transitive : forall a b c,
  localeCompare a b <= 0 -> localeCompare b c <= 0 -> localeCompare a c <= 0.

Lemma insert_post_sorted post posts :
  StronglySorted title_le posts -> StronglySorted title_le (insert_post post posts).
Proof.
  induction 1 as [|a posts Hs IH Ha]; simpl.
  - repeat constructor.
  - destruct (Z.leb_spec (localeCompare (Post.title a) (Post.title post)) 0)
      as [Hle|Hgt].
    + constructor; [done|].
      rewrite insert_post_perm. constructor; [done|]. done.
    + assert (title_le post a) as Hpa by (by apply total).
      constructor; [by constructor|].
      constructor; [done|].
      eapply Forall_impl; [exact Ha|]. intros b Hab.
      by apply (transitive _ (Post.title a)).
Qed.

Lemma sort_posts_sorted posts : StronglySorted title_le (sort_posts posts).
Proof.
  unfold sort_posts.
  assert (forall acc, StronglySorted title_le acc ->
            StronglySorted title_le
              (fold_left (fun sorted post => insert_post post sorted) posts acc))
    as Hgen.
  { induction posts as [|post posts IH]; intros acc Hacc; simpl; [done|].
    apply IH. by apply insert_post_sorted. }
  apply Hgen. constructor.
Qed.

(** X19. The document of a user (lines 38-47), when [localeCompare] is a
    total preorder: it is the user with [posts] set to the posts fetched
    for the user's id, each with the comments fetched at its own URL, one
    post after the other, in the order of their titles. *)
Theorem user_document_posts_sorted (user : list (string * value)) n doc n' :
  user_document user n = (Returned doc, n') ->
  exists fetched n1 commented_posts sorted,
    fetch_posts (posts_url user) n = (Returned fetched, n1) /\
    comments_fetched n1 fetched commented_posts n' /\
    sorted ≡ₚ commented_posts /\
    StronglySorted title_le sorted /\
    doc = VObj (obj_set "posts" (VArr (post_doc <$> sorted)) user).
Proof.
  unfold user_document.
  destruct (fetch_posts (posts_url user) n) as [[fetched|] n1]; [|discriminate].
  destruct (fetch_all_comments fetched n1) as [[posts'|] n2] eqn:Hc;
    [|discriminate].
  intros [= <- <-]. exists fetched, n1, posts', (sort_posts posts').
  split; [done|]. split; [by apply fetch_all_comments_fetched|].
  split; [apply sort_posts_perm|]. split; [apply sort_posts_sorted|done].
Qed.

End Sorted.

End IngestionProperties.

(** * The connection to the database *)

Section ConnectionProperties.
Import Connection.
Context {Db : Type} `{Client Db}.
Variable env : string -> option string.
Implicit Types (s : State Db) (handle : Db).

Lemma connectDB_returned s handle s1 :
  connectDB env s = (Returned handle, s1) -> db s1 = Some handle.
Proof.
  unfold connectDB. destruct (db s) as [h0|] eqn:Hdb.
  - by intros [= <- <-].
  - destruct (connect _ _); [|discriminate].
    destruct (client_db _); [|discriminate]. by intros [= <- <-].
Qed.

Lemma connectDB_connected s handle :
  db s = Some handle -> connectDB env s = (Returned handle, s).
Proof. unfold connectDB. by intros ->. Qed.

(** X20. [connectDB] connects once (lines 19-28), for calls made one after the
    other: once a call has returned a handle, every later call returns that
    handle without calling [client.connect()] and without logging; and a
    call that throws leaves the handle unset and logs nothing, so the next
    call tries again. *)
Theorem connectDB_once s s1 :
  (forall handle, connectDB env s = (Returned handle, s1) ->
     forall calls,
       connectDB_times env calls s1 = (replicate calls (Returned handle), s1)) /\
  (connectDB env s = (Thrown, s1) ->
     db s = None /\ db s1 = None /\ attempts s1 = S (attempts s) /\
     console s1 = console s).
Proof.
  split.
  - intros handle Hret calls. apply connectDB_returned in Hret.
    induction calls as [|calls IH]; simpl; [done|].
    by rewrite (connectDB_connected _ _ Hret), IH.
  - unfold connectDB. destruct (db s) as [h0|]; [discriminate|].
    destruct (connect _ _); [destruct (client_db _); [discriminate|]|];
      by intros [= <-].
Qed.

End ConnectionProperties.

(** * Further runs on the reference store *)

Module RouteRuns.
Import MemStore Scenario Requests.

(** [get_user_miss] on the reference store: [alice] is found. *)
Lemma get_user_miss_witness :
  res (handle get_alice world1)
  = Some (reply 200 (VObj [("user", alice); ("cached", VBool false)])).
Proof.
  pose proof (get_user_miss get_alice world1 1) as Hm.
  destruct Hm as (_ & Hfound & _); [reflexivity..|].
  apply (Hfound alice store1). reflexivity.
Defined.

(** [get_user_twice] on the reference store: [/users/001] two seconds after
    [/users/1]. *)
Lemma get_user_twice_witness :
  res (handle get_alice' world2)
  = Some (reply 200 (VObj [("user", alice); ("cached", VBool true)])).
Proof.
  pose proof (get_user_twice get_alice get_alice' world1 1 alice store1) as Ht.
  destruct Ht as (Hfresh & _); [reflexivity..|].
  apply Hfresh. vm_compute. discriminate.
Defined.

(** [failed_write_keeps_cache]: deleting a user that is not there. *)
Lemma failed_write_keeps_cache_witness :
  cache (handle delete_nobody world2) = cache world2.
Proof.
  apply (failed_write_keeps_cache delete_nobody world2
           (reply 404 (error "User not found"))); reflexivity.
Defined.

(** [user_read_after_write_asks_store]: [alice] is cached, [bob] is
    created, and [alice] is read again. *)
Lemma user_read_after_write_asks_store_witness :
  cache (next_request (handle put_bob world2)) !! userKey 1 = None /\
  calls (handle get_alice (next_request (handle put_bob world2)))
  = [CallFindOne 1].
Proof.
  eapply (user_read_after_write_asks_store put_bob get_alice world2);
    reflexivity.
Defined.


(** [handled_request_answered]: a GET /users whose URL is not parsed
    throws; a DELETE without a number is answered 400. *)
Lemma handled_request_answered_witness :
  userRouter {| method := "GET"; url := "/users"; searchParams := None;
                parsedBody := None |} world1
  = (Thrown, world1) /\
  fst (userRouter (request "DELETE" "/users/x" [] None) world1) = Returned tt /\
  exists r,
    res (handle (request "DELETE" "/users/x" [] None) world1) = Some r /\
    router_response (request "DELETE" "/users/x" [] None) r.
Proof.
  split.
  - apply (proj1 (handled_request_answered
                    {| method := "GET"; url := "/users"; searchParams := None;
                       parsedBody := None |} world1 eq_refl));
      reflexivity.
  - apply (proj2 (handled_request_answered
                    (request "DELETE" "/users/x" [] None) world1 eq_refl)).
    intros Hlist. discriminate Hlist.
Defined.

(** [read_served_from_cache]: the first page, read again. *)
Lemma read_served_from_cache_witness :
  calls (handle get_page world3) = [] /\
  cache (handle get_page world3) = cache world3 /\
  db (handle get_page world3) = db world3.
Proof.
  eapply proj2, (read_served_from_cache get_page world3);
    [reflexivity | intros _; by eexists | reflexivity | reflexivity].
Defined.

(** [reads_never_write]: [alice] read from the store. *)
Lemma reads_never_write_witness :
  exists cs, calls (handle get_alice world1) = cs /\
             forallb is_read_call cs = true.
Proof.
  apply (proj1 (reads_never_write get_alice world1 eq_refl)).
Defined.

(** [cached_flag_tells_source]: [alice] read from the store. *)
Lemma cached_flag_tells_source_witness :
  exists payload,
    reply 200 (VObj [("user", alice); ("cached", VBool false)])
    = reply 200 payload /\
    (calls (handle get_alice world1) = calls world1 ->
     get_prop payload "cached" = VBool true) /\
    (calls (handle get_alice world1) <> calls world1 ->
     get_prop payload "cached" = VBool false).
Proof.
  apply (cached_flag_tells_source get_alice world1); reflexivity.
Defined.


(** [cache_shape_invariant]: two reads and a write. *)
Lemma cache_shape_invariant_witness :
  cache_shaped (cache (serve [get_alice; get_page; put_bob] world1)).
Proof.
  apply (cache_shape_invariant [get_alice; get_page; put_bob] world1).
  reflexivity.
Defined.

(** [collection_entry_never_removed]: the first page stays through three
    writes. *)
Lemma collection_entry_never_removed_witness :
  is_Some (cache (serve [put_bob; delete_nobody; get_load] world3)
           !! collectionKey 1 5 "" "id" 1).
Proof.
  apply (collection_entry_never_removed [put_bob; delete_nobody; get_load]
           world3 1 5 "" "id" 1).
  eexists. vm_compute. reflexivity.
Defined.

End RouteRuns.

Module CollectionFailureRuns.
Import MemStore Scenario Requests.

(** [list_users_store_failure]: the page is found and the count fails. *)
Lemma list_users_store_failure_witness :
  res (handle (H := Broken.store) get_page world1)
  = Some (reply 500 (error "Failed to fetch users")) /\
  calls (handle (H := Broken.store) get_page world1)
  = [CallFind QAll "id" 1 0 5; CallCountDocuments QAll] /\
  cache (handle (H := Broken.store) get_page world1) = ∅ /\
  db (handle (H := Broken.store) get_page world1) = store1.
Proof.
  edestruct (list_users_store_failure (H := Broken.store) get_page world1 1 5)
    as [_ Hcount]; [reflexivity | by eexists | reflexivity | reflexivity
                   | lia | lia | reflexivity | reflexivity |].
  apply (Hcount [alice] store1 store1); reflexivity.
Defined.

End CollectionFailureRuns.

Module CreatedUserRuns.
Import MemStore Scenario Requests.

(** [created_user_location]: [bob] is created and read at his location. *)
Lemma created_user_location_witness :
  is_get_user (request "GET" "/users/2" [] None) = true /\
  calls (handle (request "GET" "/users/2" [] None)
           (next_request (handle put_bob world1)))
  = [CallFindOne 2].
Proof.
  edestruct (created_user_location put_bob world1 bob 2) as [_ Hget];
    [reflexivity | reflexivity | reflexivity | reflexivity
    | unfold safe_integer; lia | reflexivity | reflexivity |].
  apply (Hget (request "GET" "/users/2" [] None)); [reflexivity..|lia].
Defined.

(** [user_path_round_trip] at the largest safe integer. *)
Lemma user_path_round_trip_witness :
  parseInt (segment2 (userKey 9007199254740991)) None = Some 9007199254740991 /\
  (test_user_path (userKey 9007199254740991) = true <-> 0 <= 9007199254740991).
Proof.
  apply (user_path_round_trip 9007199254740991).
  unfold safe_integer. lia.
Defined.

End CreatedUserRuns.

Module NumberPrefixRuns.
Import MemStore Scenario.



End NumberPrefixRuns.

(** * Runs of the ingestion *)

Module IngestionRuns.
Import MemStore Scenario Requests Placeholder.

#[local] Existing Instance remote_store.


(** [load_failure_keeps_inserted]: the network fails at the posts of
    [dave], after [carol] has been inserted. *)
Lemma load_failure_keeps_inserted_witness :
  res (handle get_load (world_net 4))
  = Some (reply 500 (error "Failed to load data")) /\
  cache (handle get_load (world_net 4)) = cache (world_net 4) /\
  docs (snd (db (handle get_load (world_net 4))))
  = [alice; VObj (obj_set "_id" (VStr "oid0") (spread carol_document))].
Proof.
  edestruct (load_failure_keeps_inserted get_load (world_net 4) [carol] dave [])
    as (Hres & Hcache & Hdb); [reflexivity..|].
  rewrite Hdb. split; [exact Hres|]. split; [exact Hcache|]. reflexivity.
Defined.

Lemma by_first_character_total (a b : string) :
  0 < localeCompare a b -> localeCompare b a <= 0.
Proof. unfold localeCompare, by_first_character. lia. Qed.

Lemma by_first_character_transitive (a b c : string) :
  localeCompare a b <= 0 -> localeCompare b c <= 0 -> localeCompare a c <= 0.
Proof. unfold localeCompare, by_first_character. lia. Qed.

(** [user_document_posts_sorted]: the document of [carol]. *)
Lemma user_document_posts_sorted_witness :
  exists fetched n1 commented_posts sorted,
    fetch_posts (posts_url carol) 5%nat = (Returned fetched, n1) /\
    comments_fetched n1 fetched commented_posts 2%nat /\
    sorted ≡ₚ commented_posts /\
    StronglySorted title_le sorted /\
    carol_document = VObj (obj_set "posts" (VArr (post_doc <$> sorted)) carol).
Proof.
  apply (user_document_posts_sorted
           by_first_character_total by_first_character_transitive
           carol 5%nat carol_document 2%nat).
  reflexivity.
Defined.

End IngestionRuns.

Module ConnectionRuns.
Import Connection Flaky.

(** [connectDB_once]: the first call fails, the second connects, and three
    more calls return the same handle. *)
Lemma connectDB_once_witness :
  connectDB_times no_env 5 start
  = ([Thrown; Returned "node_assignment"; Returned "node_assignment";
      Returned "node_assignment"; Returned "node_assignment"],
     {| db := Some "node_assignment"; attempts := 2;
        console := ["Connected to MongoDB: node_assignment"] |}).
Proof.
  pose proof (proj1 (connectDB_once no_env (snd (connectDB no_env start))
                       (snd (connectDB no_env (snd (connectDB no_env start)))))
                "node_assignment" eq_refl 3%nat) as Hlater.
  change (connectDB_times no_env 5 start)
    with (let '(rs, s2) := connectDB_times no_env 3
                 (snd (connectDB no_env (snd (connectDB no_env start)))) in
          (Thrown :: Returned "node_assignment" :: rs, s2)).
  rewrite Hlater. reflexivity.
Defined.

End ConnectionRuns.
